(** * joystick_listener: a shallow embedding of the listener node

    The development follows [rclcpp_examples/src/topics/joystick_listener.cpp]:

    - [Cxx]     the pieces of C++ the file relies on: [int] counters whose
                overflow is undefined, the [int]-to-[size_t] conversion of
                the loop tests, unchecked [operator[]] on a vector, and the
                formatted inserters of [std::ostream];
    - [Joy]     the [sensor_msgs::msg::Joy] message;
    - [Listener] the callback [chatterCallback], as a program of a small
                state-and-failure monad over the standard output stream and
                the store of message objects;
    - [Main]    [main], as an interaction tree over the calls it makes into
                the middleware. *)

From ITree Require Import ITree ITreeFacts Events.State Events.StateFacts Props.Leaf.
From ITree Require Import Props.Infinite Props.EuttNoRet.
From Equations Require Import Equations.
From Stdlib Require Import ZArith List Lia Bool Ascii String Zwf.
From Stdlib Require Import SpecFloat DecimalString DecimalPos DecimalZ QArith.
Import ListNotations.

Local Open Scope string_scope.
Local Open Scope list_scope.
Local Open Scope Z_scope.

(* ===================================================================== *)
(** * The C++ fragment *)
(* ===================================================================== *)

Module Cxx.

(** ** [int] and [size_t] *)

(** [int] is 32 bits wide and [size_t] 64 bits wide (the LP64 targets of
    the middleware). *)
Definition INT_MAX : Z := 2147483647.
Definition SIZE_WIDTH : Z := 64.

(** [i++] on an [int].  Signed overflow is undefined behaviour: there is
    no successor of [INT_MAX]. *)
Definition int_succ (i : Z) : option Z :=
  if i <? INT_MAX then Some (i + 1) else None.

(** The conversion applied to the [int] operand of [i < v.size()] and of
    [v[i]]: the value modulo [2^64]. *)
Definition to_size_t (i : Z) : Z := i mod 2 ^ SIZE_WIDTH.

(** ** [std::vector] *)

Definition size {A} (v : list A) : Z := Z.of_nat (List.length v).

(** [v[n]] for [n : size_t]; the access is unchecked, so there is a value
    only when [n < v.size()]. *)
Definition at_index {A} (v : list A) (n : Z) : option A :=
  if (0 <=? n) && (n <? size v) then nth_error v (Z.to_nat n) else None.

(** ** Formatted output *)

(** A [float] is an IEEE 754 binary32 datum: a signed zero, a signed
    infinity, a NaN with its sign bit and payload, or a finite number with
    sign, mantissa and binary exponent. *)
Inductive float32 : Type :=
| B754_zero (s : bool)
| B754_infinity (s : bool)
| B754_nan (s : bool) (payload : positive)
| B754_finite (s : bool) (m : positive) (e : Z).

(** The datum without what only a NaN carries. *)
Definition to_spec_float (f : float32) : spec_float :=
  match f with
  | B754_zero s => S754_zero s
  | B754_infinity s => S754_infinity s
  | B754_nan _ _ => S754_nan
  | B754_finite s m e => S754_finite s m e
  end.

(** The data that are bit patterns of binary32: 24 bits of precision,
    exponents below 128, NaN payloads of 23 bits. *)
Definition is_float32 (f : float32) : bool :=
  match f with
  | B754_nan _ payload => Z.pos payload <? 2 ^ 23
  | _ => valid_binary 24 128 (to_spec_float f)
  end.

(** The number a finite datum stands for, in lowest terms. *)
Definition exact_value (f : float32) : option Q :=
  match f with
  | B754_zero _ => Some (0 # 1)
  | B754_finite s m e =>
      Some (Qred (Qmult (inject_Z (if s then Z.neg m else Z.pos m))
                        (Qpower (2 # 1) e)))
  | _ => None
  end.

(** The decimal numeral of an integer, as [operator<<(int)] writes it
    with the stream's initial flags ([dec], no [showpos], width 0). *)
Definition dec (z : Z) : string := NilZero.string_of_int (Z.to_int z).

(** [operator<<(float)] is the standard library's: it converts to
    [double] (exactly) and formats like [printf] with [%g] and the stream's
    precision, initially 6.  The value is rounded to [P] significant
    decimal digits (to nearest, ties to even), written in fixed notation
    when the decimal exponent [X] satisfies [-4 <= X < P] and in scientific
    notation otherwise, and trailing zeros of the fraction are dropped.
    A NaN is written [nan], an infinity [inf], each after a minus sign
    when its sign bit is set, whatever the payload of the NaN.
    [std::cout] is taken with its initial flags and the classic locale,
    which nothing in the program changes. *)
Definition precision : Z := 6.

(** Number of decimal digits of a positive integer. *)
Definition ndigits (n : Z) : Z := Z.of_nat (String.length (dec n)).

(** [10^t <= num/den], for positive [num] and [den]. *)
Definition ge_pow10 (num den t : Z) : bool :=
  if 0 <=? t then den * 10 ^ t <=? num else den <=? num * 10 ^ (- t).

(** The decimal exponent [floor (log10 (num/den))]. *)
Definition exp10 (num den : Z) : Z :=
  let t := ndigits num - ndigits den in
  if ge_pow10 num den t then t else t - 1.

(** [n/d] rounded to the nearest integer, ties to even. *)
Definition round_half_even (n d : Z) : Z :=
  let q := n / d in
  match 2 * (n mod d) ?= d with
  | Lt => q
  | Gt => q + 1
  | Eq => if Z.even q then q else q + 1
  end.

(** [num/den * 10^k], rounded. *)
Definition scale10 (num den k : Z) : Z :=
  if 0 <=? k then round_half_even (num * 10 ^ k) den
  else round_half_even num (den * 10 ^ (- k)).

(** [P] significant digits [q] and the exponent [X] of [num/den]:
    [10^(P-1) <= q < 10^P] and [num/den] is [q * 10^(X-P+1)] up to
    rounding.  Rounding up to [10^P] moves to the next exponent. *)
Definition significand (P num den : Z) : Z * Z :=
  let X := exp10 num den in
  let q := scale10 num den (P - 1 - X) in
  if q =? 10 ^ P then (10 ^ (P - 1), X + 1) else (q, X).

Fixpoint drop_zeros_rev (r : list ascii) : list ascii :=
  match r with
  | "0"%char :: r' => drop_zeros_rev r'
  | _ => r
  end.

(** Removal of the trailing zeros of a fraction. *)
Definition strip_zeros (frac : list ascii) : list ascii :=
  rev (drop_zeros_rev (rev frac)).

(** Integer part, then the decimal point and the fraction if any is left. *)
Definition with_fraction (int_part frac : list ascii) : list ascii :=
  match strip_zeros frac with
  | [] => int_part
  | f => int_part ++ "."%char :: f
  end.

(** The exponent suffix of the scientific style: sign and at least two
    digits. *)
Definition exp_suffix (X : Z) : list ascii :=
  let a := Z.abs X in
  "e"%char :: (if X <? 0 then "-"%char else "+"%char)
    :: (if a <? 10 then ["0"%char] else []) ++ list_ascii_of_string (dec a).

(** [%g] on the positive value [num/den]. *)
Definition fmt_g_pos (num den : Z) : list ascii :=
  let '(q, X) := significand precision num den in
  let ds := list_ascii_of_string (dec q) in
  if (-4 <=? X) && (X <? precision) then
    if 0 <=? X then
      with_fraction (firstn (Z.to_nat (X + 1)) ds) (skipn (Z.to_nat (X + 1)) ds)
    else
      with_fraction ["0"%char] (repeat "0"%char (Z.to_nat (- X - 1)) ++ ds)
  else
    with_fraction (firstn 1 ds) (skipn 1 ds) ++ exp_suffix X.

Definition sign_prefix (s : bool) : string := if s then "-" else EmptyString.

Definition fmt_g (f : float32) : string :=
  match f with
  | B754_zero s => String.append (sign_prefix s) "0"
  | B754_infinity s => String.append (sign_prefix s) "inf"
  | B754_nan s _ => String.append (sign_prefix s) "nan"
  | B754_finite s m e =>
      String.append (sign_prefix s)
        (string_of_list_ascii
           (if 0 <=? e then fmt_g_pos (Z.pos m * 2 ^ e) 1
            else fmt_g_pos (Z.pos m) (2 ^ (- e))))
  end.

(** The characters of a decimal numeral: the digits and the minus sign. *)
Definition is_numeral_char (c : ascii) : bool :=
  match c with
  | "0" | "1" | "2" | "3" | "4" | "5" | "6" | "7" | "8" | "9" | "-" => true
  | _ => false
  end%char.

End Cxx.

(* ===================================================================== *)
(** * The message *)
(* ===================================================================== *)

Module Joy.

(** Modelled from the spec: the declaration of [std_msgs::msg::Header],
    which comes with the middleware's message packages and not with this
    file; the callback never reads it.  A time stamp and a frame name. *)
Record Header : Type := mkHeader {
  stamp_sec : Z;
  stamp_nanosec : Z;
  frame_id : string
}.

(** Modelled from the spec: the declaration of [sensor_msgs::msg::Joy]
    (header [sensor_msgs/msg/joy.hpp], generated by the middleware's message
    packages): "two ordered sequences of numeric values - a sequence of
    floating-point axis readings and a sequence of integer button states".
    The fields are [float32[] axes] and [int32[] buttons], unbounded
    sequences, that is [std::vector<float>] and [std::vector<int32_t>]. *)
Record Joy : Type := mkJoy {
  header : Header;
  axes : list Cxx.float32;
  buttons : list Z
}.

End Joy.

(* ===================================================================== *)
(** * The callback *)
(* ===================================================================== *)

Module Listener.

Import Cxx Joy.

(** ** Standard output *)

(** What is inserted into [std::cout], one entry per [<<]. *)
Inductive item : Type :=
| put_str (s : string)          (* a string literal *)
| put_int (z : Z)               (* an [int] *)
| put_float (f : float32)       (* a [float] *)
| put_endl.                     (* [std::endl] *)

Definition newline : string := String "010"%char EmptyString.

(** The characters an insertion writes. *)
Definition render_item (it : item) : string :=
  match it with
  | put_str s => s
  | put_int z => dec z
  | put_float f => fmt_g f
  | put_endl => newline
  end.

(** The text on standard output after a sequence of insertions. *)
Definition render (its : list item) : string :=
  String.concat EmptyString (map render_item its).

(** ** Program state *)

(** A [SharedPtr] is the address of an object of the store. *)
Definition SharedPtr : Type := nat.

(** The state the callback runs in: the insertions made into [std::cout]
    so far, and the message objects that live in memory. *)
Record World : Type := mkWorld {
  cout : list item;
  store : list Joy
}.

(** A run ends normally with a value, or goes wrong at an operation whose
    behaviour is undefined: the dereference of a pointer to no object, an
    access outside a vector, the increment of an [int] equal to [INT_MAX].
    A run that goes wrong stops in the state it had reached, so what it
    had inserted into [std::cout] by then is on record. *)
Inductive outcome (A : Type) : Type :=
| Done (a : A) (w : World)
| Wrong (w : World).
Arguments Done {A} a w.
Arguments Wrong {A} w.

Definition final {A} (o : outcome A) : World :=
  match o with Done _ w => w | Wrong w => w end.

Definition completes {A} (o : outcome A) : bool :=
  match o with Done _ _ => true | Wrong _ => false end.

Definition M (A : Type) : Type := World -> outcome A.

Definition ret {A} (a : A) : M A := fun w => Done a w.

Definition bind {A B} (c : M A) (k : A -> M B) : M B :=
  fun w => match c w with
           | Done a w' => k a w'
           | Wrong w' => Wrong w'
           end.

Definition undefined {A} : M A := fun w => Wrong w.

Declare Scope cb_scope.
Delimit Scope cb_scope with cb.
Notation "x <- c ;; k" := (bind c (fun x => k))
  (at level 61, c at next level, right associativity) : cb_scope.
Notation "c ;; k" := (bind c (fun _ => k))
  (at level 61, right associativity) : cb_scope.
Local Open Scope cb_scope.

(** A step that has a result only when defined. *)
Definition defined {A} (o : option A) : M A :=
  match o with Some a => ret a | None => undefined end.

(** [std::cout << it]. *)
Definition insert (it : item) : M unit :=
  fun w => Done tt (mkWorld (cout w ++ [it]) (store w)).

(** [*msg]: undefined on a pointer that addresses no object. *)
Definition deref (msg : SharedPtr) : M Joy :=
  fun w => defined (nth_error (store w) msg) w.

(** ** The [for] statement over an [int] counter *)

Definition inspect {A} (a : A) : {b : A | a = b} := exist _ a eq_refl.

(** The distance of the counter to [INT_MAX + 1] decreases at each round;
    the accessibility proof is unfolded far enough for any run to
    evaluate. *)
Definition counter_wf : well_founded (Zwf 0) :=
  Acc_intro_generator 40 (Zwf_well_founded 0).
#[global] Opaque counter_wf INT_MAX.
#[local] Instance Zwf0_WellFounded : WellFounded (Zwf 0) := counter_wf.

(** [for (int i = i0; cond(i); i++) body(i);] started in state [w]. *)
Equations for_int (cond : Z -> M bool) (body : Z -> M unit) (i : Z) (w : World)
  : outcome unit by wf (INT_MAX + 1 - i) (Zwf 0) :=
  for_int cond body i w with cond i w => {
    | Wrong w1 := Wrong w1
    | Done false w1 := Done tt w1
    | Done true w1 with body i w1 => {
       | Wrong w2 := Wrong w2
       | Done _ w2 with inspect (int_succ i) => {
          | exist _ None _ := Wrong w2
          | exist _ (Some j) E := for_int cond body j w2 } } }.
Next Obligation.
  unfold int_succ in E. unfold Zwf.
  destruct (Z.ltb_spec i INT_MAX); inversion E. lia.
Qed.

(** ** [chatterCallback] *)

Definition chatterCallback (msg : SharedPtr) : M unit :=
  for_int
    (fun i => m <- deref msg ;; ret (to_size_t i <? size (axes m)))
    (fun i =>
       insert (put_str "axis ") ;;
       insert (put_int i) ;;
       insert (put_str ": ") ;;
       m <- deref msg ;;
       x <- defined (at_index (axes m) (to_size_t i)) ;;
       insert (put_float x) ;;
       insert put_endl)
    0 ;;
  for_int
    (fun i => m <- deref msg ;; ret (to_size_t i <? size (buttons m)))
    (fun i =>
       insert (put_str "button ") ;;
       insert (put_int i) ;;
       insert (put_str ": ") ;;
       m <- deref msg ;;
       b <- defined (at_index (buttons m) (to_size_t i)) ;;
       insert (put_int b) ;;
       insert put_endl)
    0.

(** ** What a well-behaved run prints *)

(** [std::cout << label << i << ": " << x << std::endl]. *)
Definition line (label : string) (i : Z) (x : item) : list item :=
  [put_str label; put_int i; put_str ": "; x; put_endl].

(** The lines of the elements of [l], numbered from [k]. *)
Fixpoint lines_from {A} (label : string) (op : A -> item) (k : nat) (l : list A)
  : list item :=
  match l with
  | [] => []
  | x :: t => line label (Z.of_nat k) (op x) ++ lines_from label op (S k) t
  end.

(** The first [n] elements of [l]. *)
Fixpoint take {A} (n : Z) (l : list A) : list A :=
  match l with
  | [] => []
  | x :: t => if 0 <? n then x :: take (n - 1) t else []
  end.

(** The state after further insertions. *)
Definition emit (its : list item) (w : World) : World :=
  mkWorld (cout w ++ its) (store w).

(** The insertions made between two states. *)
Definition written (w w' : World) : list item :=
  skipn (List.length (cout w)) (cout w').

(** The elements a loop reaches before its counter runs out. *)
Definition reached {A} (l : list A) : list A := take (INT_MAX + 1) l.

(** The insertions of a call on message [m]: the axis loop reaches the
    first [2^31] axes; the button loop is entered only if the axis loop
    left normally. *)
Definition expected (m : Joy) : list item :=
  lines_from "axis " put_float 0 (reached (axes m)) ++
  (if size (axes m) <=? INT_MAX
   then lines_from "button " put_int 0 (reached (buttons m))
   else []).

Definition in_range (m : Joy) : bool :=
  (size (axes m) <=? INT_MAX) && (size (buttons m) <=? INT_MAX).

(** ** The shape shared by the two loops *)

(** Both loops of [chatterCallback] visit a field [sel] of the message,
    with a label and an inserter for the elements. *)
Section Loop.

Context {A : Type}.
Variable sel : Joy -> list A.
Variable label : string.
Variable op : A -> item.
Variable msg : SharedPtr.

Definition loop_cond (i : Z) : M bool :=
  m <- deref msg ;; ret (to_size_t i <? size (sel m)).

Definition loop_body (i : Z) : M unit :=
  insert (put_str label) ;;
  insert (put_int i) ;;
  insert (put_str ": ") ;;
  m <- deref msg ;;
  x <- defined (at_index (sel m) (to_size_t i)) ;;
  insert (op x) ;;
  insert put_endl.

End Loop.

(** ** Reading the output back *)

Definition is_endl (it : item) : bool :=
  match it with put_endl => true | _ => false end.

(** The number of lines in a sequence of insertions: [std::endl] ends each
    line, and nothing else writes a line feed. *)
Definition line_count (its : list item) : Z := size (filter is_endl its).

Definition is_value (it : item) : bool :=
  match it with put_int _ | put_float _ => true | _ => false end.

(** A line of the form [<label><index>: <value>]. *)
Record printed : Type := mkPrinted {
  p_label : string;
  p_index : Z;
  p_value : item
}.

(** The lines of an output that consists of such lines only. *)
Fixpoint parse (its : list item) : option (list printed) :=
  match its with
  | [] => Some []
  | put_str l :: put_int i :: put_str sep :: v :: put_endl :: rest =>
      if String.eqb sep ": " && is_value v
      then option_map (cons (mkPrinted l i v)) (parse rest)
      else None
  | _ => None
  end.

Definition has_label (l : string) (p : printed) : bool := String.eqb (p_label p) l.

Definition axis_lines (ps : list printed) : list printed :=
  filter (has_label "axis ") ps.

Definition button_lines (ps : list printed) : list printed :=
  filter (has_label "button ") ps.

(** The parsed form of [lines_from]. *)
Fixpoint entries {A} (label : string) (op : A -> item) (k : nat) (l : list A)
  : list printed :=
  match l with
  | [] => []
  | x :: t => mkPrinted label (Z.of_nat k) (op x) :: entries label op (S k) t
  end.

(** The axis lines and the button lines of a run on [m], parsed. *)
Definition axis_part (m : Joy) : list printed :=
  entries "axis " put_float 0 (reached (axes m)).

Definition button_part (m : Joy) : list printed :=
  if size (axes m) <=? INT_MAX
  then entries "button " put_int 0 (reached (buttons m))
  else [].

Definition is_lf (c : ascii) : bool := Ascii.eqb c "010"%char.

(** The lines of a text: a line ends at each line feed. *)
Fixpoint split_lines (s : string) : list string :=
  match s with
  | EmptyString => []
  | String c r =>
      if is_lf c then EmptyString :: split_lines r
      else match split_lines r with
           | [] => [String c EmptyString]
           | l :: ls => String c l :: ls
           end
  end.

(** The text made of the given lines. *)
Definition unlines (ls : list string) : string :=
  String.concat EmptyString (map (fun l => String.append l newline) ls).

(** The text of one line, without the line feed that ends it. *)
Definition line_text (label : string) (i : Z) (x : item) : string :=
  String.append label
    (String.append (dec i) (String.append ": " (render_item x))).

(** The texts of the lines of the elements of [l], numbered from [k]. *)
Fixpoint texts {A} (label : string) (op : A -> item) (k : nat) (l : list A)
  : list string :=
  match l with
  | [] => []
  | x :: t => line_text label (Z.of_nat k) (op x) :: texts label op (S k) t
  end.

(** Characters, and texts, without a line feed. *)
Definition plain_chars (l : list ascii) : Prop := forall c, In c l -> is_lf c = false.

Definition plain (s : string) : Prop := plain_chars (list_ascii_of_string s).

End Listener.

(* ===================================================================== *)
(** * The node *)
(* ===================================================================== *)

Module Main.

Import Listener.
Import ITreeNotations.

Section Rclcpp.

(** The middleware is a collaborator: its handles and its default
    quality-of-service profile are whatever it provides. *)
Variable Node : Type.
Variable Subscription : Type.
Variable qos_profile : Type.
Variable rmw_qos_profile_default : qos_profile.

(** The calls [main] makes into [rclcpp], with the type each returns. *)
Variant rclcppE : Type -> Type :=
| rclcpp_init (argc : Z) (argv : list string) : rclcppE unit
| Node_make_shared (name : string) : rclcppE Node
| create_subscription (node : Node) (topic : string)
    (callback : SharedPtr -> M unit) (qos : qos_profile) : rclcppE Subscription
| rclcpp_spin (node : Node) : rclcppE unit.

Local Open Scope itree_scope.

Definition main (argc : Z) (argv : list string) : itree rclcppE Z :=
  ITree.trigger (rclcpp_init argc argv) ;;
  node <- ITree.trigger (Node_make_shared "listener") ;;
  sub <- ITree.trigger
           (create_subscription node "joy" chatterCallback rmw_qos_profile_default) ;;
  ITree.trigger (rclcpp_spin node) ;;
  Ret 0.

(** A subscription as the middleware sees it registered. *)
Record registration : Type := mkRegistration {
  reg_node : Node;
  reg_topic : string;
  reg_callback : SharedPtr -> M unit;
  reg_qos : qos_profile
}.

(** A middleware in which every call returns: it answers [make_shared] and
    [create_subscription] with handles of its choice, and [spin] returns
    when the node is shut down. *)
Record middleware : Type := mkMiddleware {
  new_node : string -> Node;
  new_subscription : registration -> Subscription
}.

(** Running against such a middleware, keeping the registry of
    subscriptions. *)
Definition serve (mw : middleware)
  : rclcppE ~> Monads.stateT (list registration) (itree void1) :=
  fun _ e registry =>
    match e with
    | rclcpp_init _ _ => Ret (registry, tt)
    | Node_make_shared name => Ret (registry, new_node mw name)
    | create_subscription node topic callback qos =>
        let r := mkRegistration node topic callback qos in
        Ret (registry ++ [r], new_subscription mw r)
    | rclcpp_spin _ => Ret (registry, tt)
    end.

(** A call as the middleware receives it. *)
Variant call : Type :=
| called_init (argc : Z) (argv : list string)
| called_make_shared (name : string)
| called_create_subscription (node : Node) (topic : string)
    (callback : SharedPtr -> M unit) (qos : qos_profile)
| called_spin (node : Node).

(** Running against a middleware whose calls return, keeping the log of
    the calls received. *)
Definition log_calls (mw : middleware)
  : rclcppE ~> Monads.stateT (list call) (itree void1) :=
  fun _ e log =>
    match e with
    | rclcpp_init argc argv => Ret (log ++ [called_init argc argv], tt)
    | Node_make_shared name =>
        Ret (log ++ [called_make_shared name], new_node mw name)
    | create_subscription node topic callback qos =>
        Ret (log ++ [called_create_subscription node topic callback qos],
             new_subscription mw (mkRegistration node topic callback qos))
    | rclcpp_spin node => Ret (log ++ [called_spin node], tt)
    end.

(** Running against a middleware that is never shut down: [spin] does not
    return. *)
Definition serve_forever (mw : middleware)
  : rclcppE ~> Monads.stateT (list registration) (itree void1) :=
  fun _ e registry =>
    match e with
    | rclcpp_init _ _ => Ret (registry, tt)
    | Node_make_shared name => Ret (registry, new_node mw name)
    | create_subscription node topic callback qos =>
        let r := mkRegistration node topic callback qos in
        Ret (registry ++ [r], new_subscription mw r)
    | rclcpp_spin _ => ITree.spin
    end.

End Rclcpp.

Arguments rclcpp_init {Node Subscription qos_profile}.
Arguments Node_make_shared {Node Subscription qos_profile}.
Arguments create_subscription {Node Subscription qos_profile}.
Arguments rclcpp_spin {Node Subscription qos_profile}.
Arguments main {Node Subscription qos_profile}.
Arguments mkRegistration {Node qos_profile}.
Arguments mkMiddleware {Node Subscription qos_profile}.
Arguments serve {Node Subscription qos_profile}.
Arguments called_init {Node qos_profile}.
Arguments called_make_shared {Node qos_profile}.
Arguments called_create_subscription {Node qos_profile}.
Arguments called_spin {Node qos_profile}.
Arguments log_calls {Node Subscription qos_profile}.
Arguments serve_forever {Node Subscription qos_profile}.

End Main.

Import Cxx Joy Listener.
Local Open Scope cb_scope.

(* ===================================================================== *)
(** * Sample inputs *)
(* ===================================================================== *)

Module Samples.

(** [0.5f] and [-1.0f]. *)
Definition half : float32 := B754_finite false 8388608 (-24).
Definition minus_one : float32 := B754_finite true 8388608 (-23).

Definition no_header : Header := mkHeader 0 0 EmptyString.

(** The message of the worked example: axes [0.5, -1.0], buttons [1, 0]. *)
Definition sample_msg : Joy := mkJoy no_header [half; minus_one] [1; 0].
Definition sample_world : World := mkWorld [] [sample_msg].

(** The same readings under another header, in a state where something
    has been printed already. *)
Definition stamped_msg : Joy :=
  mkJoy (mkHeader 1446140000 500 "gamepad") [half; minus_one] [1; 0].
Definition stamped_world : World :=
  mkWorld (line "axis " 0 (put_float half)) [sample_msg; stamped_msg].

Definition empty_msg : Joy := mkJoy no_header [] [].
Definition empty_world : World := mkWorld [] [empty_msg].

(** A message with [2^31 + 1] axes and one button. *)
Definition oversized_axes : list float32 :=
  repeat (B754_zero false) (Z.to_nat 2147483649).
Definition oversized_msg : Joy := mkJoy no_header oversized_axes [0].
Definition oversized_world : World := mkWorld [] [oversized_msg].

(** A message with one axis and [2^31 + 1] buttons. *)
Definition oversized_buttons : list Z := repeat 0 (Z.to_nat 2147483649).
Definition many_buttons_msg : Joy := mkJoy no_header [half] oversized_buttons.
Definition many_buttons_world : World := mkWorld [] [many_buttons_msg].

(** A state with no message object: every pointer is null. *)
Definition null_world : World := mkWorld [put_str "ready"; put_endl] [].

(** A message whose axes are a NaN with the sign bit clear, a NaN with the
    sign bit set, and the two infinities. *)
Definition nan_msg : Joy :=
  mkJoy no_header
    [B754_nan false 4194304; B754_nan true 4194304;
     B754_infinity false; B754_infinity true] [].
Definition nan_world : World := mkWorld [] [nan_msg].

(** [1.0f] and the next [float] above it. *)
Definition one : float32 := B754_finite false 8388608 (-23).
Definition one_next : float32 := B754_finite false 8388609 (-23).

End Samples.

(* ===================================================================== *)
(** * Properties of the C++ fragment *)
(* ===================================================================== *)

Lemma INT_MAX_value : INT_MAX = 2147483647.
Proof. reflexivity. Qed.

Lemma to_size_t_small (i : Z) : 0 <= i <= INT_MAX -> to_size_t i = i.
Proof.
  intros H. unfold to_size_t, SIZE_WIDTH. apply Z.mod_small.
  rewrite INT_MAX_value in H. lia.
Qed.

Lemma int_succ_lt (i : Z) : i < INT_MAX -> int_succ i = Some (i + 1).
Proof. intros H. unfold int_succ. apply Z.ltb_lt in H. rewrite H. reflexivity. Qed.

Lemma int_succ_max : int_succ INT_MAX = None.
Proof. unfold int_succ. rewrite Z.ltb_irrefl. reflexivity. Qed.

Lemma size_app {A} (l1 l2 : list A) : size (l1 ++ l2) = size l1 + size l2.
Proof. unfold size. rewrite length_app. lia. Qed.

Lemma size_nonneg {A} (l : list A) : 0 <= size l.
Proof. unfold size. lia. Qed.

Lemma at_index_app {A} (pre : list A) (x : A) (t : list A) :
  at_index (pre ++ x :: t) (size pre) = Some x.
Proof.
  unfold at_index. rewrite size_app.
  replace ((0 <=? size pre) && (size pre <? size pre + size (x :: t))) with true.
  - unfold size. rewrite Nat2Z.id, nth_error_app2, Nat.sub_diag by lia. reflexivity.
  - symmetry. apply andb_true_iff. split; [apply Z.leb_le | apply Z.ltb_lt];
      unfold size; simpl List.length; lia.
Qed.

Lemma take_nonpos {A} (n : Z) (l : list A) : n <= 0 -> take n l = [].
Proof.
  intros H. destruct l as [|x t]; [reflexivity|]. simpl.
  destruct (Z.ltb_spec 0 n); [lia | reflexivity].
Qed.

Lemma take_cons {A} (n : Z) (x : A) (t : list A) :
  0 < n -> take n (x :: t) = x :: take (n - 1) t.
Proof. intros H. simpl. apply Z.ltb_lt in H. rewrite H. reflexivity. Qed.

Lemma take_all {A} (n : Z) (l : list A) : size l <= n -> take n l = l.
Proof.
  revert n. induction l as [|x t IH]; intros n H; [reflexivity|].
  unfold size in *. simpl List.length in H.
  rewrite take_cons by lia. f_equal. apply IH. lia.
Qed.

Lemma size_take {A} (n : Z) (l : list A) : 0 <= n -> size (take n l) = Z.min n (size l).
Proof.
  revert n. induction l as [|x t IH]; intros n H.
  - simpl. unfold size. simpl. lia.
  - destruct (Z.eq_dec n 0) as [->|Hn].
    + rewrite take_nonpos by lia. unfold size. simpl List.length. lia.
    + rewrite take_cons by lia. unfold size in *. simpl List.length.
      rewrite !Nat2Z.inj_succ, IH by lia. lia.
Qed.

Lemma take_nth_error {A} (n : Z) (l : list A) (i : nat) (x : A) :
  nth_error (take n l) i = Some x -> nth_error l i = Some x.
Proof.
  revert n i. induction l as [|y t IH]; intros n i H.
  - destruct i; discriminate H.
  - destruct (Z.ltb_spec 0 n) as [Hn|Hn].
    + rewrite take_cons in H by lia. destruct i as [|i]; [exact H|].
      simpl in *. eapply IH. exact H.
    + rewrite take_nonpos in H by lia. destruct i; discriminate H.
Qed.

Lemma reached_all {A} (l : list A) : size l <= INT_MAX -> reached l = l.
Proof. intros H. apply take_all. lia. Qed.

Lemma size_reached {A} (l : list A) : size (reached l) = Z.min (INT_MAX + 1) (size l).
Proof. apply size_take. rewrite INT_MAX_value. lia. Qed.

(** The inserter of [float] on sample values: shortest fixed form, six
    significant digits, scientific form outside [1e-4, 1e6). *)
Example fmt_g_samples :
  map fmt_g
    [ B754_finite false 8388608 (-24);      (* 0.5 *)
      B754_finite true 8388608 (-23);       (* -1 *)
      B754_finite false 13421773 (-27);     (* 0.1f *)
      B754_finite false 13176795 (-22);     (* pi *)
      B754_finite false 12345 (-3);         (* 1543.125, a tie *)
      B754_finite false 1999999 (-1);       (* 999999.5, a tie *)
      B754_finite false 9765625 10;         (* 1e10 *)
      B754_finite false 13743895 (-37);     (* 1e-4f *)
      B754_finite false 11258999 (-40);
      B754_finite false 16777215 104;       (* FLT_MAX *)
      B754_finite false 1 (-149);           (* least subnormal *)
      B754_zero true; B754_infinity false; B754_infinity true;
      B754_nan false 4194304; B754_nan true 4194304; B754_nan true 1 ]
  = [ "0.5"; "-1"; "0.1"; "3.14159"; "1543.12"; "1e+06"; "1e+10"; "0.0001";
      "1.024e-05"; "3.40282e+38"; "1.4013e-45"; "-0"; "inf"; "-inf";
      "nan"; "-nan"; "-nan" ]%string.
Proof. vm_compute. reflexivity. Qed.

Example dec_samples :
  map dec [0; 7; -12; 2147483647] = ["0"; "7"; "-12"; "2147483647"]%string.
Proof. vm_compute. reflexivity. Qed.

Example samples_are_float32 :
  forallb is_float32
    [Samples.half; Samples.minus_one; B754_zero false; B754_nan true 4194304] = true.
Proof. vm_compute. reflexivity. Qed.

Example samples_exact_values :
  exact_value Samples.half = Some (1 # 2) /\
  exact_value Samples.minus_one = Some (-1 # 1).
Proof. split; vm_compute; reflexivity. Qed.

(* ===================================================================== *)
(** * The state *)
(* ===================================================================== *)

Lemma emit_nil (w : World) : emit [] w = w.
Proof. destruct w as [c s]. unfold emit. simpl. rewrite app_nil_r. reflexivity. Qed.

Lemma emit_emit (a b : list item) (w : World) : emit b (emit a w) = emit (a ++ b) w.
Proof. unfold emit. simpl. rewrite app_assoc. reflexivity. Qed.

Lemma store_emit (its : list item) (w : World) : store (emit its w) = store w.
Proof. reflexivity. Qed.

Lemma written_emit (its : list item) (w : World) : written w (emit its w) = its.
Proof.
  unfold written, emit. simpl.
  rewrite skipn_app, skipn_all, Nat.sub_diag. reflexivity.
Qed.

(* ===================================================================== *)
(** * The loops *)
(* ===================================================================== *)

(** One round of the [for] statement. *)
Lemma for_int_unfold (cond : Z -> M bool) (body : Z -> M unit) (i : Z) (w : World) :
  for_int cond body i w =
  (c <- cond i ;;
   if c then body i ;; j <- defined (int_succ i) ;; for_int cond body j
   else ret tt) w.
Proof.
  simp for_int. unfold bind.
  destruct (cond i w) as [[|] w1|w1]; simpl; try reflexivity.
  destruct (body i w1) as [[] w2|w2]; simpl; try reflexivity.
  unfold inspect. destruct (int_succ i); reflexivity.
Qed.

Section LoopFacts.

Context {A : Type}.
Variable sel : Joy -> list A.
Variable label : string.
Variable op : A -> item.
Variable msg : SharedPtr.
Variable m : Joy.

Lemma loop_cond_run (i : Z) (w : World) :
  nth_error (store w) msg = Some m -> 0 <= i <= INT_MAX ->
  loop_cond sel msg i w = Done (i <? size (sel m)) w.
Proof.
  intros Hm Hi. unfold loop_cond, bind, deref. rewrite Hm. simpl.
  rewrite to_size_t_small by assumption. reflexivity.
Qed.

Lemma loop_body_run (pre : list A) (x : A) (t : list A) (w : World) :
  nth_error (store w) msg = Some m -> sel m = pre ++ x :: t ->
  size pre <= INT_MAX ->
  loop_body sel label op msg (size pre) w =
  Done tt (emit (line label (size pre) (op x)) w).
Proof.
  intros Hm Hs Hk. unfold loop_body, bind, insert, deref. simpl. rewrite Hm. simpl.
  rewrite to_size_t_small by (pose proof (size_nonneg pre); lia).
  rewrite Hs, at_index_app. simpl. unfold emit, line. simpl.
  rewrite <- !app_assoc. reflexivity.
Qed.

(** The loop started at counter [size pre], with [s] still to visit: it
    visits the elements of [s] until the counter is [INT_MAX], and leaves
    normally exactly when the whole sequence fits an [int] counter. *)
Lemma loop_run (s pre : list A) (w : World) :
  nth_error (store w) msg = Some m -> sel m = pre ++ s ->
  size pre <= INT_MAX ->
  for_int (loop_cond sel msg) (loop_body sel label op msg) (size pre) w =
  (if size (sel m) <=? INT_MAX then Done tt else Wrong)
    (emit (lines_from label op (List.length pre) (take (INT_MAX + 1 - size pre) s)) w).
Proof.
  revert pre w. induction s as [|x t IH]; intros pre w Hm Hs Hk.
  - rewrite app_nil_r in Hs. rewrite for_int_unfold. unfold bind.
    rewrite (loop_cond_run _ _ Hm) by (pose proof (size_nonneg pre); lia).
    rewrite Hs, Z.ltb_irrefl. simpl. rewrite emit_nil.
    apply Z.leb_le in Hk. rewrite Hk. reflexivity.
  - rewrite for_int_unfold. unfold bind at 1.
    rewrite (loop_cond_run _ _ Hm) by (pose proof (size_nonneg pre); lia).
    assert (Hlt : (size pre <? size (sel m)) = true).
    { apply Z.ltb_lt. rewrite Hs, size_app. unfold size. simpl List.length. lia. }
    rewrite Hlt. unfold bind at 1.
    rewrite (loop_body_run pre x t w Hm Hs Hk).
    rewrite take_cons by lia. simpl lines_from.
    destruct (Z.eq_dec (size pre) INT_MAX) as [Hmax|Hmax].
    + unfold bind. rewrite Hmax, int_succ_max. simpl.
      replace (INT_MAX + 1 - INT_MAX - 1) with 0 by lia.
      rewrite take_nonpos by lia. simpl lines_from.
      replace (size (sel m) <=? INT_MAX) with false; [rewrite <- Hmax; reflexivity|].
      symmetry. apply Z.leb_gt. apply Z.ltb_lt in Hlt. lia.
    + unfold bind. rewrite int_succ_lt by lia. simpl.
      assert (Hsz : size (pre ++ [x]) = size pre + 1).
      { rewrite size_app. reflexivity. }
      rewrite <- Hsz.
      rewrite (IH (pre ++ [x]) (emit (line label (size pre) (op x)) w)).
      * rewrite emit_emit. rewrite Hsz.
        replace (INT_MAX + 1 - (size pre + 1)) with (INT_MAX + 1 - size pre - 1) by lia.
        replace (List.length (pre ++ [x])) with (S (List.length pre))
          by (rewrite length_app; simpl; lia).
        destruct (size (sel m) <=? INT_MAX); reflexivity.
      * rewrite store_emit. exact Hm.
      * rewrite Hs, <- app_assoc. reflexivity.
      * rewrite Hsz. lia.
Qed.

(** The whole loop, from counter [0]. *)
Lemma loop_from_zero (w : World) :
  nth_error (store w) msg = Some m ->
  for_int (loop_cond sel msg) (loop_body sel label op msg) 0 w =
  (if size (sel m) <=? INT_MAX then Done tt else Wrong)
    (emit (lines_from label op 0 (reached (sel m))) w).
Proof.
  intros Hm.
  assert (H0 : 0 <= INT_MAX) by (rewrite INT_MAX_value; lia).
  pose proof (loop_run (sel m) [] w Hm eq_refl H0) as H.
  unfold size in H at 1 3. simpl in H. rewrite Z.sub_0_r in H. exact H.
Qed.

End LoopFacts.

(* ===================================================================== *)
(** * Runs of [chatterCallback] *)
(* ===================================================================== *)

Lemma chatterCallback_loops (msg : SharedPtr) :
  chatterCallback msg =
  (for_int (loop_cond axes msg) (loop_body axes "axis " put_float msg) 0 ;;
   for_int (loop_cond buttons msg) (loop_body buttons "button " put_int msg) 0).
Proof. reflexivity. Qed.

(** Every run on a message: what has been inserted when it ends, and
    whether it ends normally. *)
Lemma chatterCallback_run (msg : SharedPtr) (m : Joy) (w : World) :
  nth_error (store w) msg = Some m ->
  chatterCallback msg w =
  (if in_range m then Done tt else Wrong) (emit (expected m) w).
Proof.
  intros Hm. rewrite chatterCallback_loops. unfold bind at 1.
  rewrite (loop_from_zero axes "axis " put_float msg m w Hm).
  unfold expected, in_range.
  destruct (size (axes m) <=? INT_MAX); simpl.
  - rewrite (loop_from_zero buttons "button " put_int msg m).
    + rewrite emit_emit. reflexivity.
    + rewrite store_emit. exact Hm.
  - rewrite app_nil_r. reflexivity.
Qed.

Lemma chatterCallback_null (msg : SharedPtr) (w : World) :
  nth_error (store w) msg = None -> chatterCallback msg w = Wrong w.
Proof.
  intros Hm. rewrite chatterCallback_loops. unfold bind at 1.
  rewrite for_int_unfold. unfold loop_cond, deref, bind. rewrite Hm. reflexivity.
Qed.

Lemma chatterCallback_final (msg : SharedPtr) (m : Joy) (w : World) :
  nth_error (store w) msg = Some m ->
  final (chatterCallback msg w) = emit (expected m) w.
Proof.
  intros Hm. rewrite (chatterCallback_run msg m w Hm).
  destruct (in_range m); reflexivity.
Qed.

Lemma chatterCallback_completes (msg : SharedPtr) (m : Joy) (w : World) :
  nth_error (store w) msg = Some m ->
  completes (chatterCallback msg w) = in_range m.
Proof.
  intros Hm. rewrite (chatterCallback_run msg m w Hm).
  destruct (in_range m); reflexivity.
Qed.

(* ===================================================================== *)
(** * Reading the output back *)
(* ===================================================================== *)

Section Lines.

Context {A : Type}.
Variable label : string.
Variable op : A -> item.
Hypothesis op_value : forall x, is_value (op x) = true.

Lemma parse_lines_from (k : nat) (l : list A) (rest : list item) :
  parse (lines_from label op k l ++ rest) =
  option_map (app (entries label op k l)) (parse rest).
Proof.
  revert k. induction l as [|x t IH]; intros k.
  - simpl. destruct (parse rest); reflexivity.
  - simpl. rewrite op_value. rewrite IH.
    destruct (parse rest); reflexivity.
Qed.

Lemma line_count_lines_from (k : nat) (l : list A) :
  line_count (lines_from label op k l) = size l.
Proof.
  unfold line_count. revert k. induction l as [|x t IH]; intros k; [reflexivity|].
  simpl. specialize (IH (S k)). pose proof (op_value x) as Hv.
  destruct (op x); try discriminate Hv; simpl;
    unfold size in *; simpl List.length; lia.
Qed.

Lemma length_entries (k : nat) (l : list A) :
  List.length (entries label op k l) = List.length l.
Proof. revert k. induction l as [|x t IH]; intros k; simpl; [|rewrite IH]; reflexivity. Qed.

Lemma nth_error_entries (k : nat) (l : list A) (i : nat) :
  nth_error (entries label op k l) i =
  option_map (fun x => mkPrinted label (Z.of_nat (k + i)) (op x)) (nth_error l i).
Proof.
  revert k i. induction l as [|x t IH]; intros k i.
  - destruct i; reflexivity.
  - destruct i as [|i]; simpl.
    + rewrite Nat.add_0_r. reflexivity.
    + rewrite IH. replace (S k + i)%nat with (k + S i)%nat by lia. reflexivity.
Qed.

Lemma indices_entries (k : nat) (l : list A) :
  map p_index (entries label op k l) = map Z.of_nat (seq k (List.length l)).
Proof. revert k. induction l as [|x t IH]; intros k; simpl; [|rewrite IH]; reflexivity. Qed.

Lemma filter_entries_same (k : nat) (l : list A) :
  filter (has_label label) (entries label op k l) = entries label op k l.
Proof.
  revert k. induction l as [|x t IH]; intros k; [reflexivity|].
  simpl. unfold has_label at 1. simpl. rewrite String.eqb_refl, IH. reflexivity.
Qed.

Lemma filter_entries_other (other : string) (k : nat) (l : list A) :
  String.eqb label other = false ->
  filter (has_label other) (entries label op k l) = [].
Proof.
  intros Hne. revert k. induction l as [|x t IH]; intros k; [reflexivity|].
  simpl. unfold has_label at 1. simpl. rewrite Hne. apply IH.
Qed.

End Lines.

Lemma parse_expected (m : Joy) :
  parse (expected m) = Some (axis_part m ++ button_part m).
Proof.
  unfold expected, axis_part, button_part.
  rewrite parse_lines_from by reflexivity.
  destruct (size (axes m) <=? INT_MAX).
  - rewrite <- (app_nil_r (lines_from "button " _ _ _)).
    rewrite parse_lines_from by reflexivity. simpl. rewrite app_nil_r. reflexivity.
  - reflexivity.
Qed.

Lemma axis_lines_expected (m : Joy) :
  axis_lines (axis_part m ++ button_part m) = axis_part m.
Proof.
  unfold axis_lines, axis_part, button_part. rewrite filter_app, filter_entries_same.
  destruct (size (axes m) <=? INT_MAX).
  - rewrite filter_entries_other by reflexivity. apply app_nil_r.
  - apply app_nil_r.
Qed.

Lemma button_lines_expected (m : Joy) :
  button_lines (axis_part m ++ button_part m) = button_part m.
Proof.
  unfold button_lines, axis_part, button_part.
  rewrite filter_app, filter_entries_other by reflexivity.
  destruct (size (axes m) <=? INT_MAX).
  - rewrite filter_entries_same. reflexivity.
  - reflexivity.
Qed.

Lemma line_count_app (a b : list item) : line_count (a ++ b) = line_count a + line_count b.
Proof. unfold line_count. rewrite filter_app, size_app. reflexivity. Qed.

Lemma line_count_expected (m : Joy) :
  line_count (expected m) =
  size (reached (axes m)) +
  (if size (axes m) <=? INT_MAX then size (reached (buttons m)) else 0).
Proof.
  unfold expected. rewrite line_count_app, line_count_lines_from by reflexivity.
  destruct (size (axes m) <=? INT_MAX).
  - rewrite line_count_lines_from by reflexivity. reflexivity.
  - reflexivity.
Qed.

Lemma in_range_true (m : Joy) :
  in_range m = true <-> size (axes m) <= INT_MAX /\ size (buttons m) <= INT_MAX.
Proof. unfold in_range. rewrite andb_true_iff, !Z.leb_le. reflexivity. Qed.

(** The output of a run, parsed: axis lines, then button lines. *)
Lemma parse_written (msg : SharedPtr) (m : Joy) (w : World) :
  nth_error (store w) msg = Some m ->
  parse (written w (final (chatterCallback msg w))) = Some (axis_part m ++ button_part m).
Proof.
  intros Hm. rewrite (chatterCallback_final msg m w Hm), written_emit.
  apply parse_expected.
Qed.

(* ===================================================================== *)
(** * The text on standard output *)
(* ===================================================================== *)

(** ** The inserters write no line feed *)

Lemma plain_chars_app (a b : list ascii) :
  plain_chars a -> plain_chars b -> plain_chars (a ++ b).
Proof. intros Ha Hb c Hc. apply in_app_or in Hc. destruct Hc; auto. Qed.

Lemma plain_chars_cons (c : ascii) (l : list ascii) :
  is_lf c = false -> plain_chars l -> plain_chars (c :: l).
Proof. intros Hc Hl d [<-|Hd]; auto. Qed.

Lemma plain_chars_nil : plain_chars [].
Proof. intros c []. Qed.

(** Closes [plain_chars] goals on literal character lists. *)
Ltac plain_literal :=
  unfold plain; simpl;
  repeat (apply plain_chars_cons; [reflexivity|]);
  apply plain_chars_nil.

Lemma plain_chars_incl (a b : list ascii) :
  incl a b -> plain_chars b -> plain_chars a.
Proof. intros Hi Hb c Hc. apply Hb, Hi, Hc. Qed.

Lemma incl_firstn {A} (n : nat) (l : list A) : incl (firstn n l) l.
Proof.
  revert n. induction l as [|x t IH]; intros [|n]; simpl;
    auto using incl_nil_l, incl_refl.
  apply incl_cons; [left; reflexivity | apply incl_tl, IH].
Qed.

Lemma incl_skipn {A} (n : nat) (l : list A) : incl (skipn n l) l.
Proof.
  revert n. induction l as [|x t IH]; intros [|n]; simpl;
    auto using incl_nil_l, incl_refl.
  apply incl_tl, IH.
Qed.

Lemma incl_drop_zeros_rev (r : list ascii) : incl (drop_zeros_rev r) r.
Proof.
  induction r as [|c r IH]; [apply incl_refl|].
  simpl. destruct (Ascii.ascii_dec c "0"%char) as [->|Hc].
  - apply incl_tl, IH.
  - replace (match c with
             | "0"%char => drop_zeros_rev r
             | _ => c :: r
             end) with (c :: r); [apply incl_refl|].
    destruct c as [[] [] [] [] [] [] [] []]; try reflexivity. contradiction Hc. reflexivity.
Qed.

Lemma incl_strip_zeros (l : list ascii) : incl (strip_zeros l) l.
Proof.
  unfold strip_zeros. intros c Hc. apply in_rev in Hc.
  apply incl_drop_zeros_rev in Hc. apply in_rev. exact Hc.
Qed.

Lemma plain_chars_repeat (c : ascii) (n : nat) :
  is_lf c = false -> plain_chars (repeat c n).
Proof. intros Hc d Hd. apply repeat_spec in Hd. subst. exact Hc. Qed.

Lemma plain_uint (d : Decimal.uint) : plain (NilEmpty.string_of_uint d).
Proof.
  unfold plain. induction d; simpl;
    [apply plain_chars_nil | apply plain_chars_cons; [reflexivity | assumption] ..].
Qed.

Lemma plain_dec (z : Z) : plain (dec z).
Proof.
  unfold dec, NilZero.string_of_int, NilZero.string_of_uint.
  destruct (Z.to_int z) as [d|d].
  - destruct d; try apply plain_uint. plain_literal.
  - unfold plain. simpl. apply plain_chars_cons; [reflexivity|].
    destruct d; try apply plain_uint. plain_literal.
Qed.

Lemma plain_with_fraction (a b : list ascii) :
  plain_chars a -> plain_chars b -> plain_chars (with_fraction a b).
Proof.
  intros Ha Hb. unfold with_fraction.
  pose proof (plain_chars_incl _ _ (incl_strip_zeros b) Hb) as Hs.
  destruct (strip_zeros b) as [|c f]; [exact Ha|].
  apply plain_chars_app; [exact Ha|].
  apply plain_chars_cons; [reflexivity | exact Hs].
Qed.

Lemma plain_exp_suffix (X : Z) : plain_chars (exp_suffix X).
Proof.
  unfold exp_suffix.
  apply plain_chars_cons; [reflexivity|].
  apply plain_chars_cons; [destruct (X <? 0); reflexivity|].
  apply plain_chars_app; [|apply plain_dec].
  destruct (Z.abs X <? 10);
    [apply plain_chars_cons; [reflexivity|] |]; apply plain_chars_nil.
Qed.

Lemma plain_fmt_g_pos (num den : Z) : plain_chars (fmt_g_pos num den).
Proof.
  unfold fmt_g_pos. destruct (significand precision num den) as [q X].
  pose proof (plain_dec q) as Hq. unfold plain in Hq.
  destruct ((-4 <=? X) && (X <? precision)); [destruct (0 <=? X)|].
  - apply plain_with_fraction;
      [apply (plain_chars_incl _ _ (incl_firstn _ _) Hq)
      |apply (plain_chars_incl _ _ (incl_skipn _ _) Hq)].
  - apply plain_with_fraction.
    + apply plain_chars_cons; [reflexivity | apply plain_chars_nil].
    + apply plain_chars_app; [apply plain_chars_repeat; reflexivity | exact Hq].
  - apply plain_chars_app; [|apply plain_exp_suffix].
    apply plain_with_fraction;
      [apply (plain_chars_incl _ _ (incl_firstn _ _) Hq)
      |apply (plain_chars_incl _ _ (incl_skipn _ _) Hq)].
Qed.

Lemma list_ascii_of_string_append (s1 s2 : string) :
  list_ascii_of_string (String.append s1 s2) =
  list_ascii_of_string s1 ++ list_ascii_of_string s2.
Proof. induction s1 as [|c s1 IH]; simpl; [|rewrite IH]; reflexivity. Qed.

Lemma plain_append (s1 s2 : string) :
  plain s1 -> plain s2 -> plain (String.append s1 s2).
Proof.
  unfold plain. rewrite list_ascii_of_string_append. apply plain_chars_app.
Qed.

Lemma plain_fmt_g (f : float32) : plain (fmt_g f).
Proof.
  assert (Hsign : forall s, plain (sign_prefix s)) by (intros [|]; plain_literal).
  destruct f as [s|s|s payload|s m e]; simpl.
  - apply plain_append; [apply Hsign | plain_literal].
  - apply plain_append; [apply Hsign | plain_literal].
  - apply plain_append; [apply Hsign | plain_literal].
  - apply plain_append; [apply Hsign|]. unfold plain.
    rewrite list_ascii_of_string_of_list_ascii.
    destruct (0 <=? e); apply plain_fmt_g_pos.
Qed.

(** ** Lines *)

Lemma split_lines_line (s rest : string) :
  plain s ->
  split_lines (String.append s (String.append newline rest)) = s :: split_lines rest.
Proof.
  unfold plain. change (String.append newline rest) with (String "010"%char rest).
  induction s as [|c s IH]; intros Hs.
  - reflexivity.
  - simpl. rewrite (Hs c) by (left; reflexivity).
    rewrite IH; [reflexivity|]. intros d Hd. apply Hs. right. exact Hd.
Qed.

Lemma append_assoc (a b c : string) :
  String.append (String.append a b) c = String.append a (String.append b c).
Proof. induction a as [|x a IH]; simpl; [|rewrite IH]; reflexivity. Qed.

Lemma render_app (a b : list item) :
  render (a ++ b) = String.append (render a) (render b).
Proof.
  unfold render. induction a as [|x a IH]; [reflexivity|].
  simpl map.
  assert (Hc : forall (s : string) (l : list string),
             String.concat EmptyString (s :: l) =
             String.append s (String.concat EmptyString l)).
  { intros s [|y l]; simpl; [|reflexivity].
    induction s as [|c s IHs]; simpl; [|rewrite <- IHs]; reflexivity. }
  rewrite !Hc, IH. symmetry. apply append_assoc.
Qed.

Section Texts.

Context {A : Type}.
Variable label : string.
Variable op : A -> item.
Hypothesis label_plain : plain label.
Hypothesis op_plain : forall x, plain (render_item (op x)).

Lemma render_line (i : Z) (x : A) (rest : list item) :
  render (line label i (op x) ++ rest) =
  String.append (line_text label i (op x)) (String.append newline (render rest)).
Proof.
  unfold line, line_text. simpl app. unfold render. simpl.
  destruct (map render_item rest) as [|r rs] eqn:Hr; simpl;
    rewrite ?append_assoc; simpl; reflexivity.
Qed.

Lemma plain_line_text (i : Z) (x : A) : plain (line_text label i (op x)).
Proof.
  unfold line_text.
  apply plain_append; [exact label_plain|].
  apply plain_append; [apply plain_dec|].
  apply plain_append; [plain_literal | apply op_plain].
Qed.

Lemma split_lines_from (k : nat) (l : list A) (rest : list item) :
  split_lines (render (lines_from label op k l ++ rest)) =
  texts label op k l ++ split_lines (render rest).
Proof.
  revert k. induction l as [|x t IH]; intros k; [reflexivity|].
  change (lines_from label op k (x :: t))
    with (line label (Z.of_nat k) (op x) ++ lines_from label op (S k) t).
  rewrite <- app_assoc, render_line.
  rewrite split_lines_line by apply plain_line_text.
  rewrite IH. reflexivity.
Qed.

Lemma length_texts (k : nat) (l : list A) : List.length (texts label op k l) = List.length l.
Proof. revert k. induction l as [|x t IH]; intros k; simpl; [|rewrite IH]; reflexivity. Qed.

Lemma size_texts (k : nat) (l : list A) : size (texts label op k l) = size l.
Proof. unfold size. rewrite length_texts. reflexivity. Qed.

End Texts.

Lemma plain_axis_label : plain "axis ".
Proof. plain_literal. Qed.

Lemma plain_button_label : plain "button ".
Proof. plain_literal. Qed.

(** The lines of text a run on [m] writes. *)
Lemma split_lines_expected (m : Joy) :
  split_lines (render (expected m)) =
  texts "axis " put_float 0 (reached (axes m)) ++
  (if size (axes m) <=? INT_MAX
   then texts "button " put_int 0 (reached (buttons m))
   else []).
Proof.
  unfold expected.
  rewrite split_lines_from by (try apply plain_axis_label; intros; apply plain_fmt_g).
  destruct (size (axes m) <=? INT_MAX); [|reflexivity].
  rewrite <- (app_nil_r (lines_from "button " _ _ _)).
  rewrite split_lines_from by (try apply plain_button_label; intros; apply plain_dec).
  simpl. rewrite app_nil_r. reflexivity.
Qed.

(* ===================================================================== *)
(** * Runs on messages that fit an [int] counter *)
(* ===================================================================== *)

(** When both sequences have at most [INT_MAX] elements the call returns,
    having inserted one line per axis and then one line per button:
    [size (axes m) + size (buttons m)] lines in all. *)
Theorem chatterCallback_in_range (msg : SharedPtr) (m : Joy) (w : World) :
  nth_error (store w) msg = Some m ->
  size (axes m) <= INT_MAX -> size (buttons m) <= INT_MAX ->
  chatterCallback msg w =
    Done tt (emit (lines_from "axis " put_float 0 (axes m) ++
                   lines_from "button " put_int 0 (buttons m)) w) /\
  line_count (written w (final (chatterCallback msg w))) =
    size (axes m) + size (buttons m).
Proof.
  intros Hm Ha Hb.
  assert (Hr : in_range m = true) by (apply in_range_true; split; assumption).
  assert (He : expected m = lines_from "axis " put_float 0 (axes m) ++
                            lines_from "button " put_int 0 (buttons m)).
  { unfold expected. apply Z.leb_le in Ha. rewrite Ha. apply Z.leb_le in Ha.
    rewrite !reached_all by assumption. reflexivity. }
  rewrite (chatterCallback_run msg m w Hm), Hr, He. split; [reflexivity|].
  simpl final. rewrite written_emit, line_count_app.
  rewrite !line_count_lines_from by reflexivity. reflexivity.
Qed.

(** The text of such a run: the line of each axis, then the line of each
    button, each of the form [<label><index>: <value>]. *)
Theorem chatterCallback_in_range_text (msg : SharedPtr) (m : Joy) (w : World) :
  nth_error (store w) msg = Some m ->
  size (axes m) <= INT_MAX -> size (buttons m) <= INT_MAX ->
  split_lines (render (written w (final (chatterCallback msg w)))) =
    texts "axis " put_float 0 (axes m) ++ texts "button " put_int 0 (buttons m) /\
  size (split_lines (render (written w (final (chatterCallback msg w))))) =
    size (axes m) + size (buttons m).
Proof.
  intros Hm Ha Hb.
  assert (Ht : split_lines (render (written w (final (chatterCallback msg w)))) =
               texts "axis " put_float 0 (axes m) ++ texts "button " put_int 0 (buttons m)).
  { rewrite (chatterCallback_final msg m w Hm), written_emit, split_lines_expected.
    apply Z.leb_le in Ha. rewrite Ha. apply Z.leb_le in Ha.
    rewrite !reached_all by assumption. reflexivity. }
  rewrite Ht. split; [reflexivity|].
  rewrite size_app, !size_texts. reflexivity.
Qed.

(** Axes that are not numbers: the sign bit of a NaN shows in its line. *)
Example nan_message_output :
  forallb is_float32 (axes Samples.nan_msg) = true /\
  completes (chatterCallback 0%nat Samples.nan_world) = true /\
  split_lines
    (render (written Samples.nan_world
               (final (chatterCallback 0%nat Samples.nan_world))))
    = ["axis 0: nan"; "axis 1: -nan"; "axis 2: inf"; "axis 3: -inf"]%string.
Proof. repeat split; vm_compute; reflexivity. Qed.

Lemma sample_msg_fits :
  nth_error (store Samples.sample_world) 0%nat = Some Samples.sample_msg /\
  size (axes Samples.sample_msg) <= INT_MAX /\
  size (buttons Samples.sample_msg) <= INT_MAX.
Proof.
  rewrite INT_MAX_value. repeat split; vm_compute; discriminate.
Qed.

(** The call returns exactly on the messages that fit. *)
Theorem chatterCallback_completes_iff (msg : SharedPtr) (m : Joy) (w : World) :
  nth_error (store w) msg = Some m ->
  (completes (chatterCallback msg w) = true <->
   size (axes m) <= INT_MAX /\ size (buttons m) <= INT_MAX).
Proof.
  intros Hm. rewrite (chatterCallback_completes msg m w Hm). apply in_range_true.
Qed.

(* ===================================================================== *)
(** * The worked example *)
(* ===================================================================== *)

Import Samples.

(** C2: on the message with axes [0.5, -1.0] and buttons [1, 0] the
    callback returns after writing exactly the four lines [axis 0: 0.5],
    [axis 1: -1], [button 0: 1], [button 1: 0], in that order; the axis
    value [-1.0] is written as [-1]. *)
Theorem sample_message_output :
  completes (chatterCallback 0%nat sample_world) = true /\
  split_lines (render (written sample_world (final (chatterCallback 0%nat sample_world))))
    = ["axis 0: 0.5"; "axis 1: -1"; "button 0: 1"; "button 1: 0"]%string /\
  render (written sample_world (final (chatterCallback 0%nat sample_world)))
    = unlines ["axis 0: 0.5"; "axis 1: -1"; "button 0: 1"; "button 1: 0"]%string /\
  fmt_g minus_one = "-1"%string.
Proof. repeat split; vm_compute; reflexivity. Qed.

(* ===================================================================== *)
(** * Empty messages *)
(* ===================================================================== *)

(** C5: on a message whose axes and buttons are both empty the callback
    returns without writing anything: zero lines. *)
Theorem empty_message_prints_nothing (msg : SharedPtr) (m : Joy) (w : World) :
  nth_error (store w) msg = Some m ->
  axes m = [] -> buttons m = [] ->
  chatterCallback msg w = Done tt w /\
  line_count (written w (final (chatterCallback msg w))) = 0 /\
  render (written w (final (chatterCallback msg w))) = EmptyString.
Proof.
  intros Hm Ha Hb.
  assert (Hrun : chatterCallback msg w = Done tt w).
  { rewrite (chatterCallback_run msg m w Hm). unfold in_range, expected.
    rewrite Ha, Hb. unfold reached, size. simpl.
    rewrite INT_MAX_value. simpl. apply f_equal, emit_nil. }
  rewrite Hrun. simpl final. replace (written w w) with (@nil item).
  - repeat split.
  - symmetry. rewrite <- (emit_nil w) at 2. apply written_emit.
Qed.

Lemma empty_message_prints_nothing_witness :
  nth_error (store empty_world) 0%nat = Some empty_msg /\
  axes empty_msg = [] /\ buttons empty_msg = [] /\
  chatterCallback 0%nat empty_world = Done tt empty_world /\
  line_count (written empty_world (final (chatterCallback 0%nat empty_world))) = 0 /\
  render (written empty_world (final (chatterCallback 0%nat empty_world))) = EmptyString.
Proof.
  split; [reflexivity|]. split; [reflexivity|]. split; [reflexivity|].
  apply (empty_message_prints_nothing 0%nat empty_msg empty_world); reflexivity.
Defined.

(* ===================================================================== *)
(** * Values and indices of the lines *)
(* ===================================================================== *)

(** The lines that are written carry the elements of their indices.  In
    every run the output consists of axis lines and button lines; the
    value inserted on the [i]-th axis line written is the [i]-th element of
    the axes of the message, the value inserted on the [i]-th button line
    written is the [i]-th element of its buttons, each handed to the stream
    as it is; when the call returns there is such a line for every
    element.  (Whether every element gets its line is another matter: see
    the messages that do not fit an [int] counter.) *)
Theorem values_pass_through (msg : SharedPtr) (m : Joy) (w : World) :
  nth_error (store w) msg = Some m ->
  exists ps : list printed,
    parse (written w (final (chatterCallback msg w))) = Some ps /\
    (forall i p, nth_error (axis_lines ps) i = Some p ->
       option_map put_float (nth_error (axes m) i) = Some (p_value p)) /\
    (forall i p, nth_error (button_lines ps) i = Some p ->
       option_map put_int (nth_error (buttons m) i) = Some (p_value p)) /\
    (completes (chatterCallback msg w) = true ->
       List.length (axis_lines ps) = List.length (axes m) /\
       List.length (button_lines ps) = List.length (buttons m)).
Proof.
  intros Hm. exists (axis_part m ++ button_part m).
  split; [apply (parse_written msg m w Hm)|].
  rewrite axis_lines_expected, button_lines_expected.
  split; [|split].
  - intros i p Hp. unfold axis_part in Hp. rewrite nth_error_entries in Hp.
    destruct (nth_error (reached (axes m)) i) as [x|] eqn:Hx; [|discriminate Hp].
    apply take_nth_error in Hx. rewrite Hx. simpl in *.
    injection Hp as <-. reflexivity.
  - intros i p Hp. unfold button_part in Hp.
    destruct (size (axes m) <=? INT_MAX); [|destruct i; discriminate Hp].
    rewrite nth_error_entries in Hp.
    destruct (nth_error (reached (buttons m)) i) as [x|] eqn:Hx; [|discriminate Hp].
    apply take_nth_error in Hx. rewrite Hx. simpl in *.
    injection Hp as <-. reflexivity.
  - intros Hc. rewrite (chatterCallback_completes msg m w Hm) in Hc.
    apply in_range_true in Hc. destruct Hc as [Ha Hb].
    unfold axis_part, button_part. apply Z.leb_le in Ha. rewrite Ha.
    apply Z.leb_le in Ha. rewrite !length_entries, !reached_all by assumption.
    split; reflexivity.
Qed.

Lemma values_pass_through_witness :
  nth_error (store sample_world) 0%nat = Some sample_msg /\
  exists ps : list printed,
    parse (written sample_world (final (chatterCallback 0%nat sample_world))) = Some ps /\
    (forall i p, nth_error (axis_lines ps) i = Some p ->
       option_map put_float (nth_error (axes sample_msg) i) = Some (p_value p)) /\
    (forall i p, nth_error (button_lines ps) i = Some p ->
       option_map put_int (nth_error (buttons sample_msg) i) = Some (p_value p)) /\
    (completes (chatterCallback 0%nat sample_world) = true ->
       List.length (axis_lines ps) = List.length (axes sample_msg) /\
       List.length (button_lines ps) = List.length (buttons sample_msg)).
Proof.
  split; [reflexivity|].
  apply (values_pass_through 0%nat sample_msg sample_world). reflexivity.
Defined.

(** C4: the indices inserted on the axis lines are [0, 1, 2, ...] in
    order, one per line without gaps, and so are the indices inserted on
    the button lines. *)
Theorem indices_count_from_zero (msg : SharedPtr) (m : Joy) (w : World) :
  nth_error (store w) msg = Some m ->
  exists ps : list printed,
    parse (written w (final (chatterCallback msg w))) = Some ps /\
    map p_index (axis_lines ps) =
      map Z.of_nat (seq 0 (List.length (axis_lines ps))) /\
    map p_index (button_lines ps) =
      map Z.of_nat (seq 0 (List.length (button_lines ps))).
Proof.
  intros Hm. exists (axis_part m ++ button_part m).
  split; [apply (parse_written msg m w Hm)|].
  rewrite axis_lines_expected, button_lines_expected.
  unfold axis_part, button_part. split.
  - rewrite indices_entries, length_entries. reflexivity.
  - destruct (size (axes m) <=? INT_MAX); [|reflexivity].
    rewrite indices_entries, length_entries. reflexivity.
Qed.

Lemma indices_count_from_zero_witness :
  nth_error (store sample_world) 0%nat = Some sample_msg /\
  exists ps : list printed,
    parse (written sample_world (final (chatterCallback 0%nat sample_world))) = Some ps /\
    map p_index (axis_lines ps) =
      map Z.of_nat (seq 0 (List.length (axis_lines ps))) /\
    map p_index (button_lines ps) =
      map Z.of_nat (seq 0 (List.length (button_lines ps))).
Proof.
  split; [reflexivity|].
  apply (indices_count_from_zero 0%nat sample_msg sample_world). reflexivity.
Defined.

(* ===================================================================== *)
(** * Frame and dependence *)
(* ===================================================================== *)

(** C7: a call only appends to standard output.  Whatever the pointer and
    the state, the message objects are the same after the call as before,
    the previous output is still there with the new insertions after it,
    and the value returned is the unit value. *)
Theorem chatterCallback_frame (msg : SharedPtr) (w : World) :
  store (final (chatterCallback msg w)) = store w /\
  (exists out, cout (final (chatterCallback msg w)) = cout w ++ out) /\
  (forall a w', chatterCallback msg w = Done a w' -> a = tt).
Proof.
  split; [|split].
  - destruct (nth_error (store w) msg) as [m|] eqn:Hm.
    + rewrite (chatterCallback_final msg m w Hm). reflexivity.
    + rewrite (chatterCallback_null msg w Hm). reflexivity.
  - destruct (nth_error (store w) msg) as [m|] eqn:Hm.
    + exists (expected m). rewrite (chatterCallback_final msg m w Hm). reflexivity.
    + exists []. rewrite (chatterCallback_null msg w Hm). simpl.
      rewrite app_nil_r. reflexivity.
  - intros [] w' _. reflexivity.
Qed.

Lemma expected_ext (m1 m2 : Joy) :
  axes m1 = axes m2 -> buttons m1 = buttons m2 -> expected m1 = expected m2.
Proof. intros Ha Hb. unfold expected. rewrite Ha, Hb. reflexivity. Qed.

Lemma in_range_ext (m1 m2 : Joy) :
  axes m1 = axes m2 -> buttons m1 = buttons m2 -> in_range m1 = in_range m2.
Proof. intros Ha Hb. unfold in_range. rewrite Ha, Hb. reflexivity. Qed.

(** C10: two calls on messages with equal axes and equal buttons write the
    same text, whatever the headers, the addresses of the messages and
    the states the calls start in; they also end the same way. *)
Theorem output_depends_on_axes_and_buttons
  (msg1 msg2 : SharedPtr) (m1 m2 : Joy) (w1 w2 : World) :
  nth_error (store w1) msg1 = Some m1 ->
  nth_error (store w2) msg2 = Some m2 ->
  axes m1 = axes m2 -> buttons m1 = buttons m2 ->
  written w1 (final (chatterCallback msg1 w1)) =
    written w2 (final (chatterCallback msg2 w2)) /\
  render (written w1 (final (chatterCallback msg1 w1))) =
    render (written w2 (final (chatterCallback msg2 w2))) /\
  completes (chatterCallback msg1 w1) = completes (chatterCallback msg2 w2).
Proof.
  intros H1 H2 Ha Hb.
  rewrite (chatterCallback_final msg1 m1 w1 H1), (chatterCallback_final msg2 m2 w2 H2).
  rewrite (chatterCallback_completes msg1 m1 w1 H1),
          (chatterCallback_completes msg2 m2 w2 H2).
  rewrite !written_emit, (expected_ext m1 m2 Ha Hb), (in_range_ext m1 m2 Ha Hb).
  repeat split.
Qed.

Lemma output_depends_on_axes_and_buttons_witness :
  nth_error (store sample_world) 0%nat = Some sample_msg /\
  nth_error (store stamped_world) 1%nat = Some stamped_msg /\
  axes sample_msg = axes stamped_msg /\ buttons sample_msg = buttons stamped_msg /\
  header sample_msg <> header stamped_msg /\
  written sample_world (final (chatterCallback 0%nat sample_world)) =
    written stamped_world (final (chatterCallback 1%nat stamped_world)) /\
  render (written sample_world (final (chatterCallback 0%nat sample_world))) =
    render (written stamped_world (final (chatterCallback 1%nat stamped_world))) /\
  completes (chatterCallback 0%nat sample_world) =
    completes (chatterCallback 1%nat stamped_world).
Proof.
  split; [reflexivity|]. split; [reflexivity|].
  split; [reflexivity|]. split; [reflexivity|].
  split; [discriminate|].
  apply (output_depends_on_axes_and_buttons
           0%nat 1%nat sample_msg stamped_msg sample_world stamped_world);
    reflexivity.
Defined.

(* ===================================================================== *)
(** * Messages that do not fit an [int] counter *)
(* ===================================================================== *)

Lemma size_oversized_axes : size oversized_axes = 2147483649.
Proof.
  unfold oversized_axes, size. rewrite repeat_length, Z2Nat.id by lia. reflexivity.
Qed.

Lemma oversized_msg_stored : nth_error (store oversized_world) 0%nat = Some oversized_msg.
Proof. reflexivity. Qed.

Lemma in_range_oversized : in_range oversized_msg = false.
Proof.
  unfold in_range.
  change (axes oversized_msg) with oversized_axes.
  rewrite size_oversized_axes, INT_MAX_value. reflexivity.
Qed.

Lemma expected_oversized :
  expected oversized_msg = lines_from "axis " put_float 0 (reached oversized_axes).
Proof.
  unfold expected.
  change (axes oversized_msg) with oversized_axes.
  rewrite size_oversized_axes, INT_MAX_value.
  change (2147483649 <=? 2147483647) with false. apply app_nil_r.
Qed.

(** C6: the callback does fail on a message it can receive.  On the
    message with [2^31 + 1] axes the axis loop inserts the lines of the
    first [2^31] axes, every access within bounds, and then increments its
    [int] counter past [INT_MAX]: the call goes wrong instead of
    returning. *)
Theorem oversized_message_goes_wrong :
  chatterCallback 0%nat oversized_world =
    Wrong (emit (lines_from "axis " put_float 0 (reached oversized_axes)) oversized_world) /\
  size (reached oversized_axes) = 2147483648.
Proof.
  split.
  - rewrite (chatterCallback_run 0%nat oversized_msg oversized_world oversized_msg_stored).
    rewrite in_range_oversized, expected_oversized. reflexivity.
  - rewrite size_reached, size_oversized_axes, INT_MAX_value. reflexivity.
Qed.

(** C1: on the message with [N = 2^31 + 1] axes and [M = 1] button the
    call does not return, and [2^31] lines have been inserted when it goes
    wrong, not [N + M]. *)
Theorem oversized_message_line_count :
  size (axes oversized_msg) + size (buttons oversized_msg) = 2147483650 /\
  completes (chatterCallback 0%nat oversized_world) = false /\
  line_count (written oversized_world (final (chatterCallback 0%nat oversized_world)))
    = 2147483648 /\
  size (split_lines
          (render (written oversized_world (final (chatterCallback 0%nat oversized_world)))))
    = 2147483648.
Proof.
  split; [|split; [|split]].
  - change (axes oversized_msg) with oversized_axes.
    rewrite size_oversized_axes. reflexivity.
  - rewrite (chatterCallback_completes 0%nat oversized_msg oversized_world oversized_msg_stored).
    apply in_range_oversized.
  - rewrite (chatterCallback_final 0%nat oversized_msg oversized_world oversized_msg_stored).
    rewrite written_emit, expected_oversized.
    rewrite line_count_lines_from by reflexivity.
    rewrite size_reached, size_oversized_axes, INT_MAX_value. reflexivity.
  - rewrite (chatterCallback_final 0%nat oversized_msg oversized_world oversized_msg_stored).
    rewrite written_emit, split_lines_expected.
    change (axes oversized_msg) with oversized_axes.
    rewrite size_oversized_axes, INT_MAX_value.
    change (2147483649 <=? 2147483647) with false. rewrite app_nil_r.
    rewrite size_texts, size_reached, size_oversized_axes, INT_MAX_value. reflexivity.
Qed.

Lemma at_index_repeat {A} (x : A) (n i : Z) :
  0 <= i < n -> at_index (repeat x (Z.to_nat n)) i = Some x.
Proof.
  intros H. unfold at_index, size. rewrite repeat_length, Z2Nat.id by lia.
  replace ((0 <=? i) && (i <? n)) with true.
  - apply nth_error_repeat. apply Z2Nat.inj_lt; lia.
  - symmetry. apply andb_true_iff. split; [apply Z.leb_le | apply Z.ltb_lt]; lia.
Qed.

Lemma size_entries {A} (label : string) (op : A -> item) (k : nat) (l : list A) :
  size (entries label op k l) = size l.
Proof. unfold size. rewrite length_entries. reflexivity. Qed.

Lemma in_entries_index {A} (label : string) (op : A -> item) (k : nat) (l : list A)
  (p : printed) :
  In p (entries label op k l) -> Z.of_nat k <= p_index p < Z.of_nat k + size l.
Proof.
  revert k. induction l as [|x t IH]; intros k H; [contradiction H|].
  unfold size in *. simpl List.length. destruct H as [<-|H].
  - simpl. lia.
  - apply IH in H. lia.
Qed.

(** No axis line bears an index above [INT_MAX], and there are at most
    [INT_MAX + 1] of them. *)
Lemma axis_part_index_bound (m : Joy) (p : printed) :
  In p (axis_part m) -> 0 <= p_index p <= INT_MAX.
Proof.
  intros Hp. unfold axis_part in Hp. apply in_entries_index in Hp.
  rewrite size_reached in Hp. lia.
Qed.

Lemma size_axis_part (m : Joy) :
  size (axis_part m) = Z.min (INT_MAX + 1) (size (axes m)).
Proof. unfold axis_part. rewrite size_entries. apply size_reached. Qed.

(** C3: not every valid index has its line.  On the message with
    [2^31 + 1] axes and one button, [2147483648] is a valid index of the
    axes and [0] a valid index of the buttons; the run has written [2^31]
    axis lines, with indices up to [2147483647], when it goes wrong.  No
    axis line bears the index [2147483648] and there is no button line at
    all, so no line renders those two elements. *)
Theorem oversized_message_misses_a_line :
  at_index (axes oversized_msg) 2147483648 = Some (B754_zero false) /\
  at_index (buttons oversized_msg) 0 = Some 0 /\
  exists ps : list printed,
    parse (written oversized_world (final (chatterCallback 0%nat oversized_world)))
      = Some ps /\
    size (axis_lines ps) = 2147483648 /\
    (forall p, In p (axis_lines ps) -> p_index p <> 2147483648) /\
    button_lines ps = [].
Proof.
  split; [|split].
  - apply (at_index_repeat (B754_zero false) 2147483649 2147483648). lia.
  - reflexivity.
  - exists (axis_part oversized_msg ++ button_part oversized_msg).
    split; [apply (parse_written 0%nat oversized_msg oversized_world oversized_msg_stored)|].
    rewrite axis_lines_expected, button_lines_expected.
    split; [|split].
    + rewrite size_axis_part. change (axes oversized_msg) with oversized_axes.
      rewrite size_oversized_axes, INT_MAX_value. reflexivity.
    + intros p Hp. apply axis_part_index_bound in Hp.
      rewrite INT_MAX_value in Hp. lia.
    + unfold button_part. change (axes oversized_msg) with oversized_axes.
      rewrite size_oversized_axes, INT_MAX_value. reflexivity.
Qed.

(* ===================================================================== *)
(** * The node *)
(* ===================================================================== *)

Section NodeFacts.

Import Main.
Import ITreeNotations.
Local Open Scope itree_scope.

Context {Node Subscription qos_profile : Type}.
Variable rmw_qos_profile_default : qos_profile.

(** C8: run against any middleware whose calls return, [main] leaves
    exactly one subscription registered: on the node it created, for the
    topic ["joy"], with [chatterCallback] as its callback and the default
    quality-of-service profile. *)
Theorem main_registers_one_subscription
  (mw : middleware Node Subscription qos_profile) (argc : Z) (argv : list string) :
  interp_state (serve mw) (main rmw_qos_profile_default argc argv) [] ≈
  Ret ([mkRegistration (new_node _ _ _ mw "listener") "joy" chatterCallback
          rmw_qos_profile_default], 0).
Proof.
  unfold main.
  do 4 (rewrite interp_state_bind, interp_state_trigger; cbn;
        rewrite bind_ret_l; cbn).
  rewrite interp_state_ret. reflexivity.
Qed.

(** C9: [main] returns once [spin] has returned, and every value it can
    return is [0]. *)
Theorem main_returns_zero
  (node : Node) (sub : Subscription) (argc : Z) (argv : list string) :
  Leaf 0 (main (Node := Node) (Subscription := Subscription)
            rmw_qos_profile_default argc argv) /\
  forall r : Z,
    Leaf r (main (Node := Node) (Subscription := Subscription)
              rmw_qos_profile_default argc argv) ->
    r = 0.
Proof.
  split.
  - unfold main.
    eapply Leaf_bind. { apply Leaf_Vis with (x := tt). apply Leaf_Ret. }
    eapply Leaf_bind. { apply Leaf_Vis with (x := node). apply Leaf_Ret. }
    eapply Leaf_bind. { apply Leaf_Vis with (x := sub). apply Leaf_Ret. }
    eapply Leaf_bind. { apply Leaf_Vis with (x := tt). apply Leaf_Ret. }
    apply Leaf_Ret.
  - unfold main. intros r H.
    apply Leaf_bind_inv in H. destruct H as [? [_ H]].
    apply Leaf_bind_inv in H. destruct H as [? [_ H]].
    apply Leaf_bind_inv in H. destruct H as [? [_ H]].
    apply Leaf_bind_inv in H. destruct H as [? [_ H]].
    apply Leaf_Ret_inv in H. exact H.
Qed.

End NodeFacts.

Lemma main_returns_zero_witness :
  Leaf 0 (Main.main (Node := nat) (Subscription := nat) tt 1 ["listener"%string]) /\
  0 = 0.
Proof.
  pose proof (main_returns_zero (Node := nat) (Subscription := nat) tt 0%nat 0%nat
                1 ["listener"%string]) as [H0 Hall].
  split; [exact H0 | exact (Hall 0 H0)].
Defined.

(* ===================================================================== *)
(** * Further properties of [chatterCallback] *)
(* ===================================================================== *)

(** ** Messages that fit *)

Lemma chatterCallback_in_range_witness :
  nth_error (store sample_world) 0%nat = Some sample_msg /\
  size (axes sample_msg) <= INT_MAX /\
  size (buttons sample_msg) <= INT_MAX /\
  chatterCallback 0%nat sample_world =
    Done tt (emit (lines_from "axis " put_float 0 (axes sample_msg) ++
                   lines_from "button " put_int 0 (buttons sample_msg)) sample_world) /\
  line_count (written sample_world (final (chatterCallback 0%nat sample_world))) =
    size (axes sample_msg) + size (buttons sample_msg).
Proof.
  destruct sample_msg_fits as [Hm [Ha Hb]].
  split; [exact Hm|]. split; [exact Ha|]. split; [exact Hb|].
  exact (chatterCallback_in_range 0%nat sample_msg sample_world Hm Ha Hb).
Defined.

Lemma chatterCallback_in_range_text_witness :
  nth_error (store sample_world) 0%nat = Some sample_msg /\
  size (axes sample_msg) <= INT_MAX /\
  size (buttons sample_msg) <= INT_MAX /\
  split_lines (render (written sample_world (final (chatterCallback 0%nat sample_world)))) =
    texts "axis " put_float 0 (axes sample_msg) ++
    texts "button " put_int 0 (buttons sample_msg) /\
  size (split_lines
          (render (written sample_world (final (chatterCallback 0%nat sample_world))))) =
    size (axes sample_msg) + size (buttons sample_msg).
Proof.
  destruct sample_msg_fits as [Hm [Ha Hb]].
  split; [exact Hm|]. split; [exact Ha|]. split; [exact Hb|].
  exact (chatterCallback_in_range_text 0%nat sample_msg sample_world Hm Ha Hb).
Defined.

Lemma chatterCallback_completes_iff_witness :
  nth_error (store sample_world) 0%nat = Some sample_msg /\
  (completes (chatterCallback 0%nat sample_world) = true <->
   size (axes sample_msg) <= INT_MAX /\ size (buttons sample_msg) <= INT_MAX).
Proof.
  split; [reflexivity|].
  apply (chatterCallback_completes_iff 0%nat sample_msg sample_world). reflexivity.
Defined.

(** ** Messages that do not fit, in general *)

(** With more than [INT_MAX] axes the call goes wrong in the axis loop:
    the lines of the first [INT_MAX + 1] axes have been inserted, and no
    button line, however many buttons there are. *)
Theorem too_many_axes (msg : SharedPtr) (m : Joy) (w : World) :
  nth_error (store w) msg = Some m ->
  INT_MAX < size (axes m) ->
  chatterCallback msg w =
    Wrong (emit (lines_from "axis " put_float 0 (take (INT_MAX + 1) (axes m))) w) /\
  line_count (written w (final (chatterCallback msg w))) = INT_MAX + 1 /\
  exists ps, parse (written w (final (chatterCallback msg w))) = Some ps /\
             button_lines ps = [].
Proof.
  intros Hm Ha.
  assert (Hr : (size (axes m) <=? INT_MAX) = false) by (apply Z.leb_gt; exact Ha).
  assert (He : expected m = lines_from "axis " put_float 0 (take (INT_MAX + 1) (axes m))).
  { unfold expected. rewrite Hr. apply app_nil_r. }
  rewrite (chatterCallback_run msg m w Hm). unfold in_range. rewrite Hr. simpl.
  rewrite written_emit. split; [rewrite He; reflexivity|]. split.
  - rewrite line_count_expected, Hr, size_reached. lia.
  - exists (axis_part m ++ button_part m). split; [apply parse_expected|].
    rewrite button_lines_expected. unfold button_part. rewrite Hr. reflexivity.
Qed.

Lemma too_many_axes_witness :
  nth_error (store oversized_world) 0%nat = Some oversized_msg /\
  INT_MAX < size (axes oversized_msg) /\
  chatterCallback 0%nat oversized_world =
    Wrong (emit (lines_from "axis " put_float 0 (take (INT_MAX + 1) (axes oversized_msg)))
             oversized_world) /\
  line_count (written oversized_world (final (chatterCallback 0%nat oversized_world)))
    = INT_MAX + 1 /\
  exists ps,
    parse (written oversized_world (final (chatterCallback 0%nat oversized_world))) = Some ps /\
    button_lines ps = [].
Proof.
  assert (Ha : INT_MAX < size (axes oversized_msg)).
  { change (axes oversized_msg) with oversized_axes.
    rewrite size_oversized_axes, INT_MAX_value. reflexivity. }
  split; [exact oversized_msg_stored|]. split; [exact Ha|].
  exact (too_many_axes 0%nat oversized_msg oversized_world oversized_msg_stored Ha).
Defined.

(** With axes that fit and more than [INT_MAX] buttons the call goes wrong
    in the button loop: every axis line and the lines of the first
    [INT_MAX + 1] buttons have been inserted. *)
Theorem too_many_buttons (msg : SharedPtr) (m : Joy) (w : World) :
  nth_error (store w) msg = Some m ->
  size (axes m) <= INT_MAX ->
  INT_MAX < size (buttons m) ->
  chatterCallback msg w =
    Wrong (emit (lines_from "axis " put_float 0 (axes m) ++
                 lines_from "button " put_int 0 (take (INT_MAX + 1) (buttons m))) w) /\
  line_count (written w (final (chatterCallback msg w))) = size (axes m) + (INT_MAX + 1).
Proof.
  intros Hm Ha Hb.
  assert (Hra : (size (axes m) <=? INT_MAX) = true) by (apply Z.leb_le; exact Ha).
  assert (Hrb : (size (buttons m) <=? INT_MAX) = false) by (apply Z.leb_gt; exact Hb).
  assert (He : expected m =
               lines_from "axis " put_float 0 (axes m) ++
               lines_from "button " put_int 0 (take (INT_MAX + 1) (buttons m))).
  { unfold expected. rewrite Hra, (reached_all (axes m) Ha). reflexivity. }
  rewrite (chatterCallback_run msg m w Hm). unfold in_range. rewrite Hra, Hrb. simpl.
  rewrite written_emit. split; [rewrite He; reflexivity|].
  rewrite line_count_expected, Hra, (reached_all (axes m) Ha), size_reached. lia.
Qed.

Lemma size_oversized_buttons : size oversized_buttons = 2147483649.
Proof.
  unfold oversized_buttons, size. rewrite repeat_length, Z2Nat.id by lia. reflexivity.
Qed.

Lemma too_many_buttons_witness :
  nth_error (store many_buttons_world) 0%nat = Some many_buttons_msg /\
  size (axes many_buttons_msg) <= INT_MAX /\
  INT_MAX < size (buttons many_buttons_msg) /\
  chatterCallback 0%nat many_buttons_world =
    Wrong (emit (lines_from "axis " put_float 0 (axes many_buttons_msg) ++
                 lines_from "button " put_int 0
                   (take (INT_MAX + 1) (buttons many_buttons_msg)))
             many_buttons_world) /\
  line_count (written many_buttons_world (final (chatterCallback 0%nat many_buttons_world)))
    = size (axes many_buttons_msg) + (INT_MAX + 1).
Proof.
  assert (Hm : nth_error (store many_buttons_world) 0%nat = Some many_buttons_msg)
    by reflexivity.
  assert (Ha : size (axes many_buttons_msg) <= INT_MAX).
  { change (axes many_buttons_msg) with [half].
    rewrite INT_MAX_value. unfold size. simpl. lia. }
  assert (Hb : INT_MAX < size (buttons many_buttons_msg)).
  { change (buttons many_buttons_msg) with oversized_buttons.
    rewrite size_oversized_buttons, INT_MAX_value. reflexivity. }
  split; [exact Hm|]. split; [exact Ha|]. split; [exact Hb|].
  exact (too_many_buttons 0%nat many_buttons_msg many_buttons_world Hm Ha Hb).
Defined.

(** In no run are there more lines than elements, nor more than
    [INT_MAX + 1] for either sequence. *)
Theorem never_more_lines_than_elements (msg : SharedPtr) (m : Joy) (w : World) :
  nth_error (store w) msg = Some m ->
  line_count (written w (final (chatterCallback msg w))) <=
    size (axes m) + size (buttons m) /\
  line_count (written w (final (chatterCallback msg w))) <= 2 * (INT_MAX + 1).
Proof.
  intros Hm. rewrite (chatterCallback_final msg m w Hm), written_emit.
  rewrite line_count_expected, !size_reached.
  pose proof (size_nonneg (buttons m)). pose proof (size_nonneg (axes m)).
  assert (0 <= INT_MAX) by (rewrite INT_MAX_value; lia).
  destruct (size (axes m) <=? INT_MAX); lia.
Qed.

Lemma never_more_lines_than_elements_witness :
  nth_error (store sample_world) 0%nat = Some sample_msg /\
  line_count (written sample_world (final (chatterCallback 0%nat sample_world))) <=
    size (axes sample_msg) + size (buttons sample_msg) /\
  line_count (written sample_world (final (chatterCallback 0%nat sample_world))) <=
    2 * (INT_MAX + 1).
Proof.
  split; [reflexivity|].
  apply (never_more_lines_than_elements 0%nat sample_msg sample_world). reflexivity.
Defined.

(** ** Order of the lines *)

(** In every run the axis lines come first and the button lines after
    them, with nothing else in between; and there is a button line only
    if every axis has had its line. *)
Theorem axis_lines_then_button_lines (msg : SharedPtr) (m : Joy) (w : World) :
  nth_error (store w) msg = Some m ->
  exists ps : list printed,
    parse (written w (final (chatterCallback msg w))) = Some ps /\
    ps = axis_lines ps ++ button_lines ps /\
    (button_lines ps <> [] -> List.length (axis_lines ps) = List.length (axes m)).
Proof.
  intros Hm. exists (axis_part m ++ button_part m).
  split; [apply (parse_written msg m w Hm)|].
  rewrite axis_lines_expected, button_lines_expected.
  split; [reflexivity|].
  unfold button_part, axis_part. intros Hb.
  destruct (Z.leb_spec (size (axes m)) INT_MAX) as [Ha|Ha].
  - rewrite length_entries, reached_all by assumption. reflexivity.
  - contradiction Hb. reflexivity.
Qed.

Lemma axis_lines_then_button_lines_witness :
  nth_error (store sample_world) 0%nat = Some sample_msg /\
  exists ps : list printed,
    parse (written sample_world (final (chatterCallback 0%nat sample_world))) = Some ps /\
    ps = axis_lines ps ++ button_lines ps /\
    (button_lines ps <> [] ->
     List.length (axis_lines ps) = List.length (axes sample_msg)).
Proof.
  split; [reflexivity|].
  apply (axis_lines_then_button_lines 0%nat sample_msg sample_world). reflexivity.
Defined.

(** ** A pointer to no message *)

(** Called with a pointer that addresses no message, the callback goes
    wrong at the first test of the axis loop, before inserting anything. *)
Theorem null_message_goes_wrong (msg : SharedPtr) (w : World) :
  nth_error (store w) msg = None ->
  chatterCallback msg w = Wrong w /\
  written w (final (chatterCallback msg w)) = [].
Proof.
  intros Hm. rewrite (chatterCallback_null msg w Hm). split; [reflexivity|].
  simpl. rewrite <- (emit_nil w) at 2. apply written_emit.
Qed.

Lemma null_message_goes_wrong_witness :
  nth_error (store null_world) 0%nat = None /\
  chatterCallback 0%nat null_world = Wrong null_world /\
  written null_world (final (chatterCallback 0%nat null_world)) = [].
Proof.
  split; [reflexivity|].
  apply (null_message_goes_wrong 0%nat null_world). reflexivity.
Defined.

(** ** One call after another *)

Lemma expected_in_range (m : Joy) :
  size (axes m) <= INT_MAX -> size (buttons m) <= INT_MAX ->
  expected m = lines_from "axis " put_float 0 (axes m) ++
               lines_from "button " put_int 0 (buttons m).
Proof.
  intros Ha Hb. unfold expected. rewrite !reached_all by assumption.
  apply Z.leb_le in Ha. rewrite Ha. reflexivity.
Qed.

(** Two calls in a row, on messages that fit: the second starts from the
    state the first leaves, so the lines of the first message are followed
    by the lines of the second, and the messages are still what they
    were. *)
Theorem two_calls_in_a_row (msg1 msg2 : SharedPtr) (m1 m2 : Joy) (w : World) :
  nth_error (store w) msg1 = Some m1 ->
  nth_error (store w) msg2 = Some m2 ->
  size (axes m1) <= INT_MAX -> size (buttons m1) <= INT_MAX ->
  size (axes m2) <= INT_MAX -> size (buttons m2) <= INT_MAX ->
  (chatterCallback msg1 ;; chatterCallback msg2) w =
    Done tt (emit ((lines_from "axis " put_float 0 (axes m1) ++
                    lines_from "button " put_int 0 (buttons m1)) ++
                   (lines_from "axis " put_float 0 (axes m2) ++
                    lines_from "button " put_int 0 (buttons m2))) w).
Proof.
  intros H1 H2 Ha1 Hb1 Ha2 Hb2. unfold bind.
  rewrite (chatterCallback_run msg1 m1 w H1).
  rewrite (proj2 (in_range_true m1) (conj Ha1 Hb1)).
  rewrite (chatterCallback_run msg2 m2 (emit (expected m1) w) H2).
  rewrite (proj2 (in_range_true m2) (conj Ha2 Hb2)).
  rewrite emit_emit, !expected_in_range by assumption. reflexivity.
Qed.

Lemma two_calls_in_a_row_witness :
  nth_error (store stamped_world) 0%nat = Some sample_msg /\
  nth_error (store stamped_world) 1%nat = Some stamped_msg /\
  (chatterCallback 0%nat ;; chatterCallback 1%nat) stamped_world =
    Done tt (emit ((lines_from "axis " put_float 0 (axes sample_msg) ++
                    lines_from "button " put_int 0 (buttons sample_msg)) ++
                   (lines_from "axis " put_float 0 (axes stamped_msg) ++
                    lines_from "button " put_int 0 (buttons stamped_msg)))
             stamped_world).
Proof.
  split; [reflexivity|]. split; [reflexivity|].
  apply (two_calls_in_a_row 0%nat 1%nat sample_msg stamped_msg stamped_world);
    try reflexivity; rewrite INT_MAX_value; vm_compute; discriminate.
Defined.

(** ** The text is made of whole lines *)

Lemma concat_cons (s : string) (l : list string) :
  String.concat EmptyString (s :: l) = String.append s (String.concat EmptyString l).
Proof.
  destruct l as [|y l]; simpl; [|reflexivity].
  induction s as [|c s IHs]; simpl; [|rewrite <- IHs]; reflexivity.
Qed.

Lemma append_empty_r (s : string) : String.append s EmptyString = s.
Proof. induction s as [|c s IH]; simpl; [|rewrite IH]; reflexivity. Qed.

Lemma unlines_cons (l : string) (ls : list string) :
  unlines (l :: ls) = String.append l (String.append newline (unlines ls)).
Proof. unfold unlines. simpl map. rewrite concat_cons, append_assoc. reflexivity. Qed.

Lemma unlines_app (a b : list string) :
  unlines (a ++ b) = String.append (unlines a) (unlines b).
Proof.
  induction a as [|l a IH]; [reflexivity|].
  simpl app. rewrite !unlines_cons, IH, !append_assoc. reflexivity.
Qed.

Lemma render_lines_from {A} (label : string) (op : A -> item) (k : nat) (l : list A)
  (rest : list item) :
  render (lines_from label op k l ++ rest) =
  String.append (unlines (texts label op k l)) (render rest).
Proof.
  revert k. induction l as [|x t IH]; intros k; [reflexivity|].
  change (lines_from label op k (x :: t))
    with (line label (Z.of_nat k) (op x) ++ lines_from label op (S k) t).
  rewrite <- app_assoc, render_line, IH.
  change (texts label op k (x :: t))
    with (line_text label (Z.of_nat k) (op x) :: texts label op (S k) t).
  rewrite unlines_cons, !append_assoc. reflexivity.
Qed.

Lemma render_expected (m : Joy) :
  render (expected m) = unlines (split_lines (render (expected m))).
Proof.
  rewrite split_lines_expected. unfold expected.
  rewrite render_lines_from, unlines_app. f_equal.
  destruct (size (axes m) <=? INT_MAX); [|reflexivity].
  rewrite <- (app_nil_r (lines_from "button " _ _ _)).
  rewrite render_lines_from. apply append_empty_r.
Qed.

(** In every run the text written is a sequence of whole lines: it is
    what its own lines give back when each is ended by a line feed, so a
    run never leaves a line unfinished. *)
Theorem output_is_whole_lines (msg : SharedPtr) (m : Joy) (w : World) :
  nth_error (store w) msg = Some m ->
  render (written w (final (chatterCallback msg w))) =
  unlines (split_lines (render (written w (final (chatterCallback msg w))))).
Proof.
  intros Hm. rewrite (chatterCallback_final msg m w Hm), written_emit.
  apply render_expected.
Qed.

Lemma output_is_whole_lines_witness :
  nth_error (store sample_world) 0%nat = Some sample_msg /\
  render (written sample_world (final (chatterCallback 0%nat sample_world))) =
  unlines (split_lines
             (render (written sample_world (final (chatterCallback 0%nat sample_world))))).
Proof.
  split; [reflexivity|].
  apply (output_is_whole_lines 0%nat sample_msg sample_world). reflexivity.
Defined.

(** ** What a line tells *)

Lemma numeral_uint (d : Decimal.uint) (c : ascii) :
  In c (list_ascii_of_string (NilEmpty.string_of_uint d)) -> is_numeral_char c = true.
Proof.
  induction d; simpl; intros H; try contradiction;
    (destruct H as [<-|H]; [reflexivity | auto]).
Qed.

Lemma numeral_dec (z : Z) (c : ascii) :
  In c (list_ascii_of_string (dec z)) -> is_numeral_char c = true.
Proof.
  unfold dec, NilZero.string_of_int, NilZero.string_of_uint.
  destruct (Z.to_int z) as [d|d].
  - destruct d; try apply numeral_uint. simpl. intros [<-|[]]. reflexivity.
  - simpl. intros [<-|H]; [reflexivity|]. revert H.
    destruct d; try apply numeral_uint. simpl. intros [<-|[]]. reflexivity.
Qed.

Lemma dec_inj (a b : Z) : dec a = dec b -> a = b.
Proof.
  unfold dec. intros H.
  assert (Hn : forall z, Z.to_int z <> Decimal.Pos Decimal.Nil /\
                         Z.to_int z <> Decimal.Neg Decimal.Nil).
  { intros [|p|p]; simpl; split; try discriminate;
      intros E; injection E as E; exact (DecimalPos.Unsigned.to_uint_nonnil p E). }
  apply DecimalZ.to_int_inj.
  assert (E : NilZero.int_of_string (NilZero.string_of_int (Z.to_int a)) =
              NilZero.int_of_string (NilZero.string_of_int (Z.to_int b)))
    by (rewrite H; reflexivity).
  rewrite !NilZero.isi in E by apply Hn. injection E as E. exact E.
Qed.

Lemma append_inj_l (p a b : string) : String.append p a = String.append p b -> a = b.
Proof. induction p as [|c p IH]; simpl; intros H; [exact H|]. injection H as H. auto. Qed.

(** Two numerals, each followed by a colon, split the same way. *)
Lemma numeral_colon_inj (a a' r r' : string) :
  (forall c, In c (list_ascii_of_string a) -> is_numeral_char c = true) ->
  (forall c, In c (list_ascii_of_string a') -> is_numeral_char c = true) ->
  String.append a (String ":"%char r) = String.append a' (String ":"%char r') ->
  a = a' /\ r = r'.
Proof.
  revert a'. induction a as [|c a IH]; intros [|c' a'] Ha Ha' H; simpl in H.
  - injection H as H. split; [reflexivity | exact H].
  - injection H as Hc _. specialize (Ha' c' (or_introl eq_refl)).
    rewrite <- Hc in Ha'. discriminate Ha'.
  - injection H as Hc _. specialize (Ha c (or_introl eq_refl)).
    rewrite Hc in Ha. discriminate Ha.
  - injection H as Hc H. subst c'.
    destruct (IH a') as [-> ->]; auto.
    + intros d Hd. apply Ha. right. exact Hd.
    + intros d Hd. apply Ha'. right. exact Hd.
Qed.

(** The text of a line determines the index printed on it and the text of
    its value; on a button line it determines the button state itself. *)
Theorem line_text_determines_index (label : string) (i i' : Z) (x x' : item) :
  line_text label i x = line_text label i' x' ->
  i = i' /\ render_item x = render_item x' /\
  forall b b', x = put_int b -> x' = put_int b' -> b = b'.
Proof.
  unfold line_text. intros H. apply append_inj_l in H.
  change (String.append ": " (render_item x))
    with (String ":"%char (String " "%char (render_item x))) in H.
  change (String.append ": " (render_item x'))
    with (String ":"%char (String " "%char (render_item x'))) in H.
  apply numeral_colon_inj in H; try apply numeral_dec.
  destruct H as [Hi Hx]. apply dec_inj in Hi. injection Hx as Hx.
  split; [exact Hi|]. split; [exact Hx|].
  intros b b' -> ->. apply dec_inj. exact Hx.
Qed.

Lemma line_text_determines_index_witness :
  line_text "button " 1 (put_int 0) = line_text "button " 1 (put_int 0) /\
  1 = 1 /\ render_item (put_int 0) = render_item (put_int 0) /\
  forall b b', put_int 0 = put_int b -> put_int 0 = put_int b' -> b = b'.
Proof.
  split; [reflexivity|].
  apply (line_text_determines_index "button " 1 1 (put_int 0) (put_int 0)). reflexivity.
Defined.

(** An axis line does not determine the axis value: values are written with
    six significant digits, and [1.0f] and the next [float] above it give
    the same line, for every index. *)
Theorem axis_text_is_rounded :
  exists x y : float32,
    is_float32 x = true /\ is_float32 y = true /\
    exact_value x = Some (1 # 1) /\ exact_value y = Some (8388609 # 8388608) /\
    x <> y /\
    forall i : Z,
      line_text "axis " i (put_float x) = line_text "axis " i (put_float y).
Proof.
  exists one, one_next.
  do 4 (split; [vm_compute; reflexivity|]).
  split; [discriminate|].
  intros i. unfold line_text, render_item.
  replace (fmt_g one_next) with (fmt_g one) by (vm_compute; reflexivity).
  reflexivity.
Qed.

(* ===================================================================== *)
(** * Further properties of [main] *)
(* ===================================================================== *)

Section MainFacts.

Import Main.
Import ITreeNotations.
Local Open Scope itree_scope.

Context {Node Subscription qos_profile : Type}.
Variable rmw_qos_profile_default : qos_profile.

(** Run against any middleware whose calls return, [main] makes exactly
    four calls, in this order: [init] with the arguments of the process,
    unchanged; [make_shared] for one node named ["listener"];
    [create_subscription] on that node; [spin] on that same node.  Then it
    returns [0]. *)
Theorem main_call_sequence
  (mw : middleware Node Subscription qos_profile) (argc : Z) (argv : list string) :
  interp_state (log_calls mw) (main rmw_qos_profile_default argc argv) [] ≈
  Ret ([called_init argc argv;
        called_make_shared "listener";
        called_create_subscription (new_node _ _ _ mw "listener") "joy" chatterCallback
          rmw_qos_profile_default;
        called_spin (new_node _ _ _ mw "listener")], 0).
Proof.
  unfold main.
  do 4 (rewrite interp_state_bind, interp_state_trigger; cbn;
        rewrite bind_ret_l; cbn).
  rewrite interp_state_ret. reflexivity.
Qed.

Lemma spin_all_infinite {E : Type -> Type} {R : Type} : all_infinite (@ITree.spin E R).
Proof.
  apply not_converge_to_all_infinite. intros r H.
  inversion H as [t Hr | t B e k b Hv Hk]; subst.
  - eapply eutt_spin_Ret_abs. exact Hr.
  - eapply eutt_spin_Vis_abs. exact Hv.
Qed.

(** Nothing runs after a computation that never returns. *)
Lemma bind_spin {E : Type -> Type} {R S : Type} (k : R -> itree E S) :
  ITree.bind ITree.spin k ≈ ITree.spin.
Proof.
  symmetry.
  pose proof (euttNoRet_spin E S R) as H1.
  pose proof (noret_bind_nop k (@spin_all_infinite E R)) as H2.
  unfold euttNoRet in *.
  pose proof (eqit_trans _ _ _ _ _ _ _ H1 H2) as H3.
  eapply eutt_subrel; [|exact H3].
  intros x y [? ? []].
Qed.

(** Run against a middleware that is never shut down, [main] never
    returns: it has no way out of [spin], and no exit code is produced. *)
Theorem main_blocks_in_spin
  (mw : middleware Node Subscription qos_profile) (argc : Z) (argv : list string) :
  interp_state (serve_forever mw) (main rmw_qos_profile_default argc argv) [] ≈
  ITree.spin.
Proof.
  unfold main.
  do 3 (rewrite interp_state_bind, interp_state_trigger; cbn;
        rewrite bind_ret_l; cbn).
  rewrite interp_state_bind, interp_state_trigger. cbn.
  apply bind_spin.
Qed.

End MainFacts.
